(** * Biometric authentication system: lockout guard, PIN verifier,
      session issuer, liveness detector and login orchestrator

    A shallow embedding of [database.py], [pin_auth.py], [session.py],
    [logger.py], [liveness.py] and [login.py], with the properties the
    specification states about them.

    Conventions of the embedding.
    - An instant returned by [datetime.now()] is an integer number of
      microseconds; the text ["%Y-%m-%d %H:%M:%S"] produced by [strftime]
      is identified with the whole second it denotes.
    - A Python [str] is a [string]; its characters are read as code points
      below 256, the ones below 128 being ASCII.
    - SQLite tables are finite maps when a UNIQUE column keys them and
      lists of rows (in rowid order) otherwise.
    - Library primitives whose internals are not part of the repository
      (SHA-256, HMAC-SHA256, the JSON/base64 codec, IEEE arithmetic and
      formatting, the face detector and recogniser) are parameters. *)

From Stdlib Require Import ZArith QArith Lia Ascii.
From Stdlib Require String.
From stdpp Require Import base tactics option list strings gmap pretty sorting.

Local Open Scope Z_scope.

(** ** datetime *)

Module Clock.

(** A [datetime] value, in microseconds. *)
Definition datetime := Z.

(** A formatted ["%Y-%m-%d %H:%M:%S"] text, in whole seconds. *)
Definition timestamp := Z.

Definition timedelta_seconds (s : Z) : Z := s * 1000000.
Definition timedelta_minutes (m : Z) : Z := m * 60 * 1000000.

(** [dt.strftime("%Y-%m-%d %H:%M:%S")] drops the microsecond field. *)
Definition strftime (dt : datetime) : timestamp := dt `div` 1000000.

(** [datetime.strptime(s, "%Y-%m-%d %H:%M:%S")]. *)
Definition strptime (s : timestamp) : datetime := s * 1000000.

(** [int(td.total_seconds())]: truncation toward zero. *)
Definition int_total_seconds (td : Z) : Z := td `quot` 1000000.

End Clock.

(** ** database.py: the lockouts and users tables *)

Module Database.
Import Clock.

(** A row of [lockouts], keyed by the UNIQUE [identifier] column. *)
Record lockout_row := LockoutRow {
  fail_count : Z;
  locked_until : option timestamp
}.

Abbreviation lockouts_table := (gmap string lockout_row).

(** A row of [users], keyed by the UNIQUE [username] column. *)
Record user_row := UserRow {
  fullname : string;
  pin_hash : option string;
  date_registered : timestamp
}.

Abbreviation users_table := (gmap string user_row).

Definition get_lockout (identifier : string) (t : lockouts_table)
  : Z * option timestamp :=
  match t !! identifier with
  | Some row => (fail_count row, locked_until row)
  | None => (0, None)
  end.

Definition record_failure (identifier : string) (now : datetime)
    (t : lockouts_table) : lockouts_table * (Z * option timestamp) :=
  let '(fc, _) := get_lockout identifier t in
  let fc := fc + 1 in
  let lu := if 5 <=? fc
            then Some (strftime (now + timedelta_seconds 30))
            else None in
  (<[identifier := LockoutRow fc lu]> t, (fc, lu)).

Definition reset_failures (identifier : string) (t : lockouts_table)
  : lockouts_table :=
  delete identifier t.

Definition is_locked_out (identifier : string) (now : datetime)
    (t : lockouts_table) : lockouts_table * (bool * Z) :=
  let '(_, lu) := get_lockout identifier t in
  match lu with
  | Some until =>
      let locked_dt := strptime until in
      if now <? locked_dt
      then (t, (true, int_total_seconds (locked_dt - now)))
      else (reset_failures identifier t, (false, 0))
  | None => (t, (false, 0))
  end.

Definition save_pin_hash (username : string) (h : option string)
    (u : users_table) : users_table :=
  match u !! username with
  | Some row =>
      <[username := UserRow (fullname row) h (date_registered row)]> u
  | None => u
  end.

Definition get_pin_hash (username : string) (u : users_table)
  : option string :=
  match u !! username with
  | Some row => pin_hash row
  | None => None
  end.

(** [record_failure] called once per instant of [times], in order. *)
Fixpoint record_failures (identifier : string) (times : list datetime)
    (t : lockouts_table) : lockouts_table :=
  match times with
  | [] => t
  | now :: rest =>
      record_failures identifier rest (record_failure identifier now t).1
  end.

End Database.

(** ** Python [str] and [bytes] operations used by the program *)

Module Str.

Definition code (c : ascii) : N := N_of_ascii c.

(** [str.isascii]. *)
Definition is_ascii_char (c : ascii) : bool := (code c <? 128)%N.

(** [all(p(c) for c in s)]. *)
Fixpoint all_chars (p : ascii -> bool) (s : string) : bool :=
  match s with
  | EmptyString => true
  | String c r => p c && all_chars p r
  end.

Definition isascii (s : string) : bool := all_chars is_ascii_char s.

Definition differs (sep : ascii) (c : ascii) : bool := negb (Ascii.eqb c sep).

(** Python truthiness of a [str]. *)
Definition truthy (s : string) : bool :=
  match s with EmptyString => false | String _ _ => true end.

(** [s.split(sep, 1)], when it has two parts: cut at the first [sep]. *)
Fixpoint split1 (sep : ascii) (s : string) : option (string * string) :=
  match s with
  | EmptyString => None
  | String c r =>
      if Ascii.eqb c sep then Some (EmptyString, r)
      else match split1 sep r with
           | Some (a, b) => Some (String c a, b)
           | None => None
           end
  end.

(** [s.rsplit(sep, 1)], when it has two parts: cut at the last [sep]. *)
Fixpoint rsplit1 (sep : ascii) (s : string) : option (string * string) :=
  match s with
  | EmptyString => None
  | String c r =>
      match rsplit1 sep r with
      | Some (a, b) => Some (String c a, b)
      | None => if Ascii.eqb c sep then Some (EmptyString, r) else None
      end
  end.

(** [str.isspace] on one character (code points below 256). *)
Definition is_space (c : ascii) : bool :=
  let n := code c in
  ((9 <=? n) && (n <=? 13) || (28 <=? n) && (n <=? 32)
   || (n =? 133) || (n =? 160))%N.

Fixpoint lstrip (s : string) : string :=
  match s with
  | EmptyString => EmptyString
  | String c r => if is_space c then lstrip r else s
  end.

Fixpoint rstrip (s : string) : string :=
  match s with
  | EmptyString => EmptyString
  | String c r =>
      match rstrip r with
      | EmptyString => if is_space c then EmptyString
                       else String c EmptyString
      | r' => String c r'
      end
  end.

(** [s.strip()]. *)
Definition strip (s : string) : string := rstrip (lstrip s).

Definition hexdigit (n : N) : ascii :=
  match String.get (N.to_nat n) "0123456789abcdef" with
  | Some c => c
  | None => "0"%char
  end.

(** [bytes.hex()]. *)
Fixpoint hex (bs : list Byte.byte) : string :=
  match bs with
  | [] => EmptyString
  | b :: r =>
      let n := Byte.to_N b in
      String (hexdigit (n / 16)%N) (String (hexdigit (n mod 16)%N) (hex r))
  end.

Definition is_hex_char (c : ascii) : bool :=
  negb (all_chars (differs c) "0123456789abcdef").

(** The value of a hexadecimal digit. *)
Definition unhexdigit (c : ascii) : N :=
  let n := code c in
  if (n <? 58)%N then (n - 48)%N else (n - 87)%N.

(** The character at [i] with bit [bit] (0 to 7) inverted. *)
Definition flip_char (bit : N) (c : ascii) : ascii :=
  ascii_of_N (N.lxor (code c) (2 ^ bit)).

Fixpoint flip_bit (i : nat) (bit : N) (s : string) : string :=
  match s, i with
  | EmptyString, _ => EmptyString
  | String c r, O => String (flip_char bit c) r
  | String c r, S j => String c (flip_bit j bit r)
  end.

End Str.

(** ** pin_auth.py *)

Module PinAuth.

(** [hashlib.sha256(s.encode()).digest()]. *)
Class Sha256 := sha256 : string -> list Byte.byte.

Definition SEPARATOR : ascii := "$"%char.

Section WithSha256.
Context `{Sha256}.

(** [_hash_pin(pin, salt)]; [rnd] is what [os.urandom(16)] returns when
    the salt is drawn. *)
Definition _hash_pin (pin : string) (salt : option string)
    (rnd : list Byte.byte) : string :=
  let salt := match salt with Some s => s | None => Str.hex rnd end in
  let digest := Str.hex (sha256 (salt +:+ pin)) in
  salt +:+ String SEPARATOR digest.

(** [verify_pin(pin, stored)]; an unpacking failure is caught and gives
    [False]. *)
Definition verify_pin (pin stored : string) : bool :=
  match Str.split1 SEPARATOR stored with
  | Some (salt, _) => String.eqb (_hash_pin pin (Some salt) []) stored
  | None => false
  end.

(** What happens to the PIN dialog of [prompt_verify_pin] until its window
    is destroyed: a Confirm with the entry text of that moment, a Cancel
    (or the window being closed), or the expiry of the 1000 ms after which
    a [win.destroy] was scheduled. *)
Inductive dialog_event :=
  | Submit (text : string)
  | Cancel
  | Elapsed.

(** The dialog, with [remaining] the attempts left and [closing] set once
    [win.after(1000, win.destroy)] has been scheduled; the window is also
    destroyed when nothing more happens. *)
Fixpoint dialog_loop (stored : string) (remaining : Z) (closing : bool)
    (events : list dialog_event) : bool :=
  match events with
  | [] => false
  | Cancel :: _ => false
  | Elapsed :: rest =>
      if closing then false else dialog_loop stored remaining closing rest
  | Submit text :: rest =>
      if verify_pin (Str.strip text) stored then true
      else
        let remaining := remaining - 1 in
        dialog_loop stored remaining (closing || (remaining <=? 0)) rest
  end.

Definition prompt_verify_pin (username stored_hash : string)
    (events : list dialog_event) : bool :=
  dialog_loop stored_hash 3 false events.

End WithSha256.

End PinAuth.

(** ** session.py *)

Module Session.
Import Clock.

Definition SESSION_DURATION_MINUTES : Z := 30.

(** The dictionary serialised into a token. *)
Record payload := Payload {
  username : string;
  created_at : timestamp;
  expires_at : timestamp;
  nonce : string
}.

(** [hmac.new(key.encode(), msg.encode(), hashlib.sha256).digest()]. *)
Class Hmac := hmac_sha256 : string -> string -> list Byte.byte.

(** [dumps_b64 p] is [base64.b64encode(json.dumps(p).encode()).decode()];
    [loads_b64 s] is [json.loads(base64.b64decode(s).decode())] followed by
    the reading of its fields, [None] when any of these raises. *)
Class PayloadCodec := {
  dumps_b64 : payload -> string;
  loads_b64 : string -> option payload
}.

(** A row of [sessions]. The statements of this module presuppose the
    table; [create_tables] of [database.py] does not create it. *)
Record session_row := SessionRow {
  row_username : string;
  row_token : string;
  row_created_at : timestamp;
  row_expires_at : timestamp;
  row_active : Z
}.

(** What the module persists: [models/session.key] and the table. *)
Record store := Store {
  key_file : option string;
  sessions : list session_row
}.

Inductive exn := TypeError | DecodeError.

Inductive outcome (A : Type) :=
  | Return (a : A)
  | Raise (e : exn).
Arguments Return {A} a.
Arguments Raise {A} e.

(** [hmac.compare_digest] on two [str]: both must be ASCII. *)
Definition compare_digest (a b : string) : outcome bool :=
  if Str.isascii a && Str.isascii b then Return (String.eqb a b)
  else Raise TypeError.

(** [_get_secret_key()]; [rnd] is the 32 bytes behind
    [secrets.token_hex(32)], used when the key file does not exist. *)
Definition _get_secret_key (rnd : list Byte.byte) (kf : option string)
  : string * option string :=
  match kf with
  | Some content => (Str.strip content, kf)
  | None => let key := Str.hex rnd in (key, Some key)
  end.

Section WithPrimitives.
Context `{Hmac} `{PayloadCodec}.

Definition _sign (msg : string) (rnd : list Byte.byte) (kf : option string)
  : string * option string :=
  let '(key, kf) := _get_secret_key rnd kf in
  (Str.hex (hmac_sha256 key msg), kf).

(** [create_session(username)]: [now_expires] and [now_created] are the
    two readings of the clock, [rnd_nonce] the 8 bytes of the nonce. *)
Definition create_session (user : string)
    (now_expires now_created : datetime)
    (rnd_nonce rnd_key : list Byte.byte) (st : store) : store * string :=
  let expires :=
    strftime (now_expires + timedelta_minutes SESSION_DURATION_MINUTES) in
  let created := strftime now_created in
  let encoded := dumps_b64 (Payload user created expires (Str.hex rnd_nonce)) in
  let '(sig, kf) := _sign encoded rnd_key (key_file st) in
  let token := encoded +:+ String "." sig in
  (Store kf (sessions st ++ [SessionRow user token created expires 1]), token).

(** [UPDATE sessions SET active = 0 WHERE token = ?]. *)
Definition deactivate (token : string) (r : session_row) : session_row :=
  if String.eqb (row_token r) token
  then SessionRow (row_username r) (row_token r) (row_created_at r)
                  (row_expires_at r) 0
  else r.

Definition invalidate_session (token : string) (st : store) : store :=
  Store (key_file st) (map (deactivate token) (sessions st)).

(** [SELECT active FROM sessions WHERE token = ?] then [fetchone()]. *)
Fixpoint select_active (token : string) (rows : list session_row)
  : option Z :=
  match rows with
  | [] => None
  | r :: rest =>
      if String.eqb (row_token r) token then Some (row_active r)
      else select_active token rest
  end.

Definition validate_session (token : string) (now : datetime)
    (rnd_key : list Byte.byte) (st : store)
  : store * outcome (option payload) :=
  match Str.rsplit1 "." token with
  | None => (st, Return None)
  | Some (encoded, sig) =>
      let '(expected, kf) := _sign encoded rnd_key (key_file st) in
      let st := Store kf (sessions st) in
      match compare_digest expected sig with
      | Raise e => (st, Raise e)
      | Return false => (st, Return None)
      | Return true =>
          match loads_b64 encoded with
          | None => (st, Raise DecodeError)
          | Some p =>
              if strptime (expires_at p) <? now
              then (invalidate_session token st, Return None)
              else match select_active token (sessions st) with
                   | Some 1 => (st, Return (Some p))
                   | _ => (st, Return None)
                   end
          end
      end
  end.

End WithPrimitives.

End Session.

(** ** Floating-point operations the program applies *)

Module Float.

Class FloatOps (F : Type) := {
  f_lit : Q -> F;
  f_add : F -> F -> F;
  f_sub : F -> F -> F;
  f_div : F -> F -> F;
  f_max : F -> F -> F;
  f_ltb : F -> F -> bool;
  f_mean : list F -> F;
  f_format_1f : F -> string
}.

End Float.

(** ** logger.py *)

Module Logger.
Import Clock.

Record log_row (F : Type) := LogRow {
  log_username : string;
  log_status : string;
  log_confidence : F;
  log_timestamp : timestamp
}.
Arguments LogRow {F} _ _ _ _.
Arguments log_username {F} _.
Arguments log_status {F} _.
Arguments log_confidence {F} _.
Arguments log_timestamp {F} _.

(** [log_attempt]: one row into the [logs] table and one line, holding the
    same four values, appended to [logs/access.log]. *)
Definition log_attempt {F} (user status : string) (confidence : F)
    (now : datetime) (logs access_log : list (log_row F))
  : list (log_row F) * list (log_row F) :=
  let row := LogRow user status confidence (strftime now) in
  (logs ++ [row], access_log ++ [row]).

End Logger.

(** ** The camera, as the program observes it *)

Module Camera.

(** One captured frame, described by what the program computes from it:
    [live_eyes] is the pair [(l_ratio, r_ratio)] that [_eye_open_ratio]
    gives on the largest face found by the liveness detector, [None] when
    that detector finds no face; [faces] lists, in detection order, what
    [recognizer.predict] returns on each face found by the recognition
    detector; [key] is what [cv2.waitKey] returns while the frame is
    shown. *)
Record frame (F : Type) := Frame {
  live_eyes : option (F * F);
  faces : list (Z * F);
  key : Z
}.
Arguments Frame {F} _ _ _.
Arguments live_eyes {F} _.
Arguments faces {F} _.
Arguments key {F} _.

(** A [cv2.VideoCapture]: whether it is open, and the frames to come. *)
Record capture (F : Type) := Capture {
  opened : bool;
  stream : list (frame F)
}.
Arguments Capture {F} _ _.
Arguments opened {F} _.
Arguments stream {F} _.

Definition isOpened {F} (cap : capture F) : bool := opened cap.

Definition release {F} (cap : capture F) : capture F :=
  Capture false (stream cap).

(** [cap.read()]: [(ret, frame)] with [ret] false giving [None]. *)
Definition read {F} (cap : capture F) : option (frame F) * capture F :=
  if opened cap then
    match stream cap with
    | f :: rest => (Some f, Capture true rest)
    | [] => (None, cap)
    end
  else (None, cap).

(** [cv2.waitKey(1) & 0xFF == 27]. *)
Definition esc_pressed {F} (f : frame F) : bool :=
  Z.land (key f) 255 =? 27.

End Camera.

(** ** liveness.py *)

Module Liveness.
Import Float Camera.

Definition REQUIRED_BLINKS : Z := 2.
Definition MAX_FRAMES : Z := 300.
Definition CONSEC_CLOSED : Z := 2.
Definition HISTORY_LEN : nat := 4.

Record blink_state (F : Type) := BlinkState {
  blink_count : Z;
  frame_count : Z;
  consec_closed : Z;
  eye_was_open : bool;
  ratio_history : list F
}.
Arguments BlinkState {F} _ _ _ _ _.
Arguments blink_count {F} _.
Arguments frame_count {F} _.
Arguments consec_closed {F} _.
Arguments eye_was_open {F} _.
Arguments ratio_history {F} _.

Section WithFloat.
Context {F : Type} `{FloatOps F}.

Definition EYE_CLOSED_RATIO : F := f_lit 0.23.

Definition initial : blink_state F := BlinkState 0 0 0 true [].

(** The history after the frame's averaged ratio is appended and the
    oldest sample dropped when more than [HISTORY_LEN] are held. *)
Definition push_ratio (l_ratio r_ratio : F) (history : list F) : list F :=
  let eye_ratio := f_div (f_add l_ratio r_ratio) (f_lit 2) in
  let h := history ++ [eye_ratio] in
  if (HISTORY_LEN <? length h)%nat then tail h else h.

(** [smoothed < EYE_CLOSED_RATIO]. *)
Definition eye_closed (history : list F) : bool :=
  f_ltb (f_mean history) EYE_CLOSED_RATIO.

(** The blink state machine, on a frame with a face. *)
Definition track_eyes (l_ratio r_ratio : F) (s : blink_state F)
  : blink_state F :=
  let h := push_ratio l_ratio r_ratio (ratio_history s) in
  if eye_closed h then
    BlinkState (blink_count s) (frame_count s) (consec_closed s + 1) false h
  else if (CONSEC_CLOSED <=? consec_closed s) && negb (eye_was_open s) then
    BlinkState (blink_count s + 1) (frame_count s) 0 true []
  else
    BlinkState (blink_count s) (frame_count s) 0 true h.

(** The part of one loop iteration that updates the counters. *)
Definition process_frame (f : frame F) (s : blink_state F) : blink_state F :=
  let s := BlinkState (blink_count s) (frame_count s + 1) (consec_closed s)
                      (eye_was_open s) (ratio_history s) in
  match live_eyes f with
  | Some (l, r) => track_eyes l r s
  | None => s
  end.

(** The [while True] loop; the result carries the frames not yet read. *)
Fixpoint liveness_loop (frames : list (frame F)) (s : blink_state F)
  : bool * list (frame F) :=
  match frames with
  | [] => (false, [])
  | f :: rest =>
      let s := process_frame f s in
      if REQUIRED_BLINKS <=? blink_count s then (true, rest)
      else if MAX_FRAMES <=? frame_count s then (false, rest)
      else if esc_pressed f then (false, rest)
      else liveness_loop rest s
  end.

Definition check_liveness (cap : capture F) : bool * capture F :=
  if opened cap then
    let '(ok, rest) := liveness_loop (stream cap) initial in
    (ok, Capture true rest)
  else (false, cap).

(** *** The run of the machine over a sequence of frames *)

Definition run (frames : list (frame F)) (s : blink_state F)
  : blink_state F :=
  fold_left (fun s f => process_frame f s) frames s.

(** What the machine decides about frame [f] in state [s]: [Some true]
    for closed, [Some false] for open, [None] without a face. *)
Definition judged (f : frame F) (s : blink_state F) : option bool :=
  match live_eyes f with
  | Some (l, r) => Some (eye_closed (push_ratio l r (ratio_history s)))
  | None => None
  end.

Fixpoint judgements (frames : list (frame F)) (s : blink_state F)
  : list (option bool) :=
  match frames with
  | [] => []
  | f :: rest => judged f s :: judgements rest (process_frame f s)
  end.

End WithFloat.

(** *** The specification's reading of a sequence of judgements *)

Definition is_open (j : option bool) : bool :=
  match j with Some false => true | _ => false end.

Definition is_closed (j : option bool) : bool :=
  match j with Some true => true | _ => false end.

(** Frames before the first open one. *)
Fixpoint until_open (js : list (option bool)) : list (option bool) :=
  match js with
  | [] => []
  | j :: rest => if is_open j then [] else j :: until_open rest
  end.

(** Length of the closed span that ends the sequence: the closed frames
    seen since the last open one. *)
Definition closed_span (js : list (option bool)) : Z :=
  Z.of_nat (length (filter (fun j => is_closed j = true) (until_open (rev js)))).

(** Blinks of a sequence: the open frames that end a closed span of at
    least two frames. *)
Fixpoint count_blinks (seen js : list (option bool)) : Z :=
  match js with
  | [] => 0
  | j :: rest =>
      (if is_open j && (2 <=? closed_span seen) then 1 else 0)
      + count_blinks (seen ++ [j]) rest
  end.

End Liveness.

(** ** login.py *)

Module Login.
Import Clock Database Float Camera Logger PinAuth.

Definition LOCKOUT_IDENTIFIER : string := "login".
Definition MAX_RECOG_FRAMES : Z := 150.

(** What persists across calls of [login_user]: the tables of [auth.db],
    the access log file, the [intruders/] directory (keyed by the
    timestamp of the file name) and the session module's storage. *)
Record world (F : Type) := World {
  lockouts : gmap string lockout_row;
  users : gmap string user_row;
  logs : list (log_row F);
  access_log : list (log_row F);
  intruders : gmap timestamp (frame F);
  session_store : Session.store
}.
Arguments World {F} _ _ _ _ _ _.
Arguments lockouts {F} _.
Arguments users {F} _.
Arguments logs {F} _.
Arguments access_log {F} _.
Arguments intruders {F} _.
Arguments session_store {F} _.

(** What one call of [login_user] receives from outside: the reading of
    the clock at each of the four places that consult it (each is reached
    at most once per call), the state of the model files, the camera and
    the events of the PIN dialog. *)
Record inputs (F : Type) := Inputs {
  now_lockout_check : datetime;
  now_failure : datetime;
  now_log : datetime;
  now_snapshot : datetime;
  model_paths_exist : bool;
  loaded_model : string + gmap Z string;
  camera : capture F;
  pin_events : list dialog_event
}.
Arguments Inputs {F} _ _ _ _ _ _ _ _.
Arguments now_lockout_check {F} _.
Arguments now_failure {F} _.
Arguments now_log {F} _.
Arguments now_snapshot {F} _.
Arguments model_paths_exist {F} _.
Arguments loaded_model {F} _.
Arguments camera {F} _.
Arguments pin_events {F} _.

Definition newline : string := String "010"%char EmptyString.

Definition locked_message (secs : Z) : string :=
  "Too many failed attempts." +:+ newline +:+
  "Account locked. Try again in " +:+ pretty secs +:+ " second(s).".

(** The two endings of a failure message. *)
Definition failure_message (msg : string) (fail_count : Z) : string :=
  if 5 <=? fail_count
  then msg +:+ newline +:+ "Account locked for 30 seconds."
  else msg +:+ " (" +:+ pretty (5 - fail_count)
           +:+ " attempt(s) left before lockout)".

(** [_save_intruder_snapshot(frame)]. *)
Definition _save_intruder_snapshot {F} (snap : frame F) (now : datetime)
    (dir : gmap timestamp (frame F)) : gmap timestamp (frame F) :=
  <[strftime now := snap]> dir.

(** The variables of the recognition loop; [recognized] holds
    [recognized_user] and [best_confidence], which are assigned together. *)
Record recog_state (F : Type) := RecogState {
  recognized : option (string * F);
  intruder_frame : option (frame F);
  frames_checked : Z
}.
Arguments RecogState {F} _ _ _.
Arguments recognized {F} _.
Arguments intruder_frame {F} _.
Arguments frames_checked {F} _.

(** Python truthiness of [recognized_user]. *)
Definition user_recognized {F} (st : recog_state F) : bool :=
  match recognized st with
  | Some (u, _) => Str.truthy u
  | None => false
  end.

Section WithPrimitives.
Context {F : Type} `{FloatOps F} `{Sha256}.

Definition CONFIDENCE_THRESHOLD : F := f_lit 80.

(** The [for (x, y, w, h) in faces] loop on one frame. *)
Fixpoint scan_faces (label_map : gmap Z string) (fr : frame F)
    (predictions : list (Z * F)) (st : recog_state F) : recog_state F :=
  match predictions with
  | [] => st
  | (label_id, confidence) :: rest =>
      let match_quality := f_max (f_lit 0) (f_sub (f_lit 100) confidence) in
      let predicted_user := default "Unknown" (label_map !! label_id) in
      if f_ltb confidence CONFIDENCE_THRESHOLD
      then RecogState (Some (predicted_user, match_quality)) None
                      (frames_checked st)
      else scan_faces label_map fr rest
             (RecogState (recognized st) (Some fr) (frames_checked st))
  end.

(** The [while frames_checked < MAX_RECOG_FRAMES] loop. *)
Fixpoint recognition_loop (label_map : gmap Z string)
    (frames : list (frame F)) (st : recog_state F)
  : recog_state F * list (frame F) :=
  if frames_checked st <? MAX_RECOG_FRAMES then
    match frames with
    | [] => (st, [])
    | fr :: rest =>
        let st := RecogState (recognized st) (intruder_frame st)
                             (frames_checked st + 1) in
        let st := scan_faces label_map fr (faces fr) st in
        if user_recognized st then (st, rest)
        else if esc_pressed fr then (st, rest)
        else recognition_loop label_map rest st
    end
  else (st, frames).

Definition recognise (label_map : gmap Z string) (cap : capture F)
  : recog_state F * capture F :=
  if opened cap then
    let '(st, rest) :=
      recognition_loop label_map (stream cap) (RecogState None None 0) in
    (st, Capture true rest)
  else (RecogState None None 0, cap).

Definition with_lockouts (t : gmap string lockout_row) (w : world F) : world F :=
  World t (users w) (logs w) (access_log w) (intruders w) (session_store w).

Definition with_log (user status : string) (confidence : F) (now : datetime)
    (w : world F) : world F :=
  let '(l, a) := log_attempt user status confidence now (logs w) (access_log w) in
  World (lockouts w) (users w) l a (intruders w) (session_store w).

Definition with_snapshot (snap : frame F) (now : datetime) (w : world F)
  : world F :=
  World (lockouts w) (users w) (logs w) (access_log w)
        (_save_intruder_snapshot snap now (intruders w)) (session_store w).

Definition login_user (i : inputs F) (w : world F)
  : world F * (bool * string) :=
  (* 1. lockout check *)
  let '(t, (locked, secs)) :=
    is_locked_out LOCKOUT_IDENTIFIER (now_lockout_check i) (lockouts w) in
  let w := with_lockouts t w in
  if locked then (w, (false, locked_message secs)) else
  (* 2. load model *)
  if negb (model_paths_exist i)
  then (w, (false, "Model not found! Please train the model first.")) else
  match loaded_model i with
  | inl e => (w, (false, "Error loading model: " +:+ e))
  | inr label_map =>
  let cap := camera i in
  if negb (isOpened cap) then (w, (false, "Cannot access webcam.")) else
  (* 3. liveness check *)
  let '(liveness_ok, cap) := Liveness.check_liveness cap in
  if negb liveness_ok then
    let cap := release cap in
    let '(t, (fail_count, _)) :=
      record_failure LOCKOUT_IDENTIFIER (now_failure i) (lockouts w) in
    let w := with_lockouts t w in
    let w := with_log "UNKNOWN" "LIVENESS_FAIL" (f_lit 0) (now_log i) w in
    let '(snap, cap) := if isOpened cap then read cap else (None, cap) in
    let w := match snap with
             | Some fr => with_snapshot fr (now_snapshot i) w
             | None => w
             end in
    (w, (false, failure_message
                  "Liveness check failed. Please blink naturally." fail_count))
  else
  (* 4. face recognition *)
  let '(st, cap) := recognise label_map cap in
  (* 5. unrecognised face *)
  match (if user_recognized st then recognized st else None) with
  | None =>
      let w := match intruder_frame st with
               | Some fr =>
                   let w := with_snapshot fr (now_snapshot i) w in
                   with_log "UNKNOWN" "INTRUDER" (f_lit 0) (now_log i) w
               | None => with_log "UNKNOWN" "FAILED" (f_lit 0) (now_log i) w
               end in
      let '(t, (fail_count, _)) :=
        record_failure LOCKOUT_IDENTIFIER (now_failure i) (lockouts w) in
      (with_lockouts t w,
       (false, failure_message "Face not recognised." fail_count))
  | Some (recognized_user, best_confidence) =>
  (* 6. PIN verification *)
  match get_pin_hash recognized_user (users w) with
  | None =>
      let w := with_log recognized_user "NO_PIN" best_confidence (now_log i) w in
      let '(t, _) :=
        record_failure LOCKOUT_IDENTIFIER (now_failure i) (lockouts w) in
      (with_lockouts t w,
       (false, "No PIN set for '" +:+ recognized_user
               +:+ "'. Please re-register."))
  | Some stored_pin =>
      if negb (prompt_verify_pin recognized_user stored_pin (pin_events i))
      then
        let w := with_log recognized_user "WRONG_PIN" best_confidence
                          (now_log i) w in
        let '(t, (fail_count, _)) :=
          record_failure LOCKOUT_IDENTIFIER (now_failure i) (lockouts w) in
        (with_lockouts t w,
         (false, failure_message
                   ("Wrong PIN for '" +:+ recognized_user +:+ "'.") fail_count))
      else
  (* 7. all checks passed *)
        let w := with_lockouts
                   (reset_failures LOCKOUT_IDENTIFIER (lockouts w)) w in
        let w := with_log recognized_user "SUCCESS" best_confidence
                          (now_log i) w in
        (w, (true, "Login Successful! Welcome, " +:+ recognized_user +:+ " ("
                   +:+ f_format_1f best_confidence +:+ "% confidence)"))
  end end end.

End WithPrimitives.

End Login.

(** ** Executable instances of the parameters

    Exact rational arithmetic for the floating-point operations, and
    small stand-ins for the digest, the keyed digest and the payload codec.
    They serve to run the embedding on concrete inputs. *)

Module Reference.
Import Float.

Definition Qltb (a b : Q) : bool := negb (Qle_bool b a).

Definition Qmean (l : list Q) : Q :=
  Qdiv (fold_right Qplus (0#1)%Q l) (inject_Z (Z.of_nat (length l))).

(** One decimal, the tie going to the even digit. *)
Definition tenths (q : Q) : Z :=
  let n := Qnum q * 10 in
  let d := Zpos (Qden q) in
  let lo := n `div` d in
  let r := n `mod` d in
  if (d <? 2 * r) || ((d =? 2 * r) && Z.odd lo) then lo + 1 else lo.

Definition Qformat_1f (q : Q) : string :=
  let t := tenths q in
  (if t <? 0 then "-" else "") +:+
  pretty (Z.abs t `div` 10) +:+ "." +:+ pretty (Z.abs t `mod` 10).

#[global] Instance Q_float : FloatOps Q := {|
  f_lit := fun q => q;
  f_add := Qplus;
  f_sub := Qminus;
  f_div := Qdiv;
  f_max := fun a b => if Qltb a b then b else a;
  f_ltb := Qltb;
  f_mean := Qmean;
  f_format_1f := Qformat_1f
|}.

Definition bytes_of_string (s : string) : list Byte.byte :=
  String.list_byte_of_string s.

(** A digest that keeps its whole input. *)
Definition plain_digest : PinAuth.Sha256 := bytes_of_string.

(** A keyed digest that keeps the key and the whole message. *)
Definition plain_mac : Session.Hmac :=
  fun key msg => bytes_of_string (key +:+ ":" +:+ msg).

Fixpoint parse_N (s : string) (acc : N) : option N :=
  match s with
  | EmptyString => Some acc
  | String c r =>
      match Ascii.is_nat c with
      | Some d => parse_N r (acc * 10 + N.of_nat d)%N
      | None => None
      end
  end.

Definition parse_Z (s : string) : option Z :=
  match s with
  | EmptyString => None
  | String "-" r => (fun n => - Z.of_N n) <$> parse_N r 0%N
  | _ => Z.of_N <$> parse_N s 0%N
  end.

(** A codec writing the four fields separated by commas. *)
Definition csv_dumps (p : Session.payload) : string :=
  pretty (Session.created_at p) +:+ "," +:+ pretty (Session.expires_at p)
  +:+ "," +:+ Session.nonce p +:+ "," +:+ Session.username p.

Definition csv_loads (s : string) : option Session.payload :=
  '(c, s) ← Str.split1 "," s;
  '(e, s) ← Str.split1 "," s;
  '(n, u) ← Str.split1 "," s;
  c ← parse_Z c;
  e ← parse_Z e;
  Some (Session.Payload u c e n).

Definition csv_codec : Session.PayloadCodec :=
  {| Session.dumps_b64 := csv_dumps; Session.loads_b64 := csv_loads |}.

(** *** A concrete installation and two login attempts *)

Definition alice_pin_hash : string :=
  @PinAuth._hash_pin plain_digest "4242" None [Byte.x3c; Byte.xa7].

(** Two failures already counted, one registered user, nothing logged,
    no snapshot, no session. *)
Definition alice_world : Login.world Q :=
  Login.World
    (<["login" := Database.LockoutRow 2 None]> ∅)
    (<["alice" := Database.UserRow "Alice A" (Some alice_pin_hash) 1700000000]> ∅)
    [] [] ∅ (Session.Store None []).

(** A frame showing one face with both eyes at openness [r], no key. *)
Definition eyes (r : Q) : Camera.frame Q := Camera.Frame (Some (r, r)) [] (-1).

(** A frame whose only face is predicted as label [l] at distance [d]. *)
Definition face (l : Z) (d : Q) : Camera.frame Q :=
  Camera.Frame None [(l, d)] (-1).

(** Two full blinks, then alice's face at distance 35.5. *)
Definition blinking_alice : list (Camera.frame Q) :=
  [eyes (3#10); eyes 0; eyes 0; eyes (9#10); eyes 0; eyes 0; eyes (9#10);
   face 1 (71#2)].

Definition good_attempt : Login.inputs Q :=
  Login.Inputs 10000000 11000000 12000000 13000000 true
    (inr (<[1 := "alice"]> ∅)) (Camera.Capture true blinking_alice)
    [PinAuth.Submit "4242"].

(** Escape pressed on the first frame, with more frames to come. *)
Definition cancelled_attempt : Login.inputs Q :=
  Login.Inputs 10000000 11000000 12000000 13000000 true
    (inr (<[1 := "alice"]> ∅))
    (Camera.Capture true
       [Camera.Frame (Some (3#10, 3#10)) [] 27; eyes (3#10); face 1 (71#2)])
    [].

End Reference.

(** ** session.py: the listing of active sessions *)

Module SessionListing.
Import Clock Session.

(** [ORDER BY created_at DESC]; the order among rows created in the same
    second is the engine's choice and no statement below depends on it. *)
Definition newer_first (a b : session_row) : Prop :=
  row_created_at b <= row_created_at a.

#[global] Instance newer_first_dec : RelDecision newer_first.
Proof. intros a b. unfold newer_first. apply _. Defined.

Definition listed (r : session_row) : string * timestamp * timestamp :=
  (row_username r, row_created_at r, row_expires_at r).

(** [get_active_sessions()]. *)
Definition get_active_sessions (st : store)
  : list (string * timestamp * timestamp) :=
  map listed
    (merge_sort newer_first (filter (fun r => row_active r = 1) (sessions st))).

End SessionListing.

(** ** pin_auth.py: the dialog that sets a PIN *)

Module PinSetup.
Import Str PinAuth.

(** [str.isdigit] on one character (code points below 256): the decimal
    digits and the superscripts two, three and one. *)
Definition is_digit_char (c : ascii) : bool :=
  let n := code c in
  ((48 <=? n) && (n <=? 57) || (n =? 178) || (n =? 179) || (n =? 185))%N.

(** [s.isdigit()]: false on the empty string. *)
Definition isdigit (s : string) : bool := truthy s && all_chars is_digit_char s.

(** The three refusals of [on_confirm], in the order they are tested:
    "PIN must contain digits only.", "PIN must be 4-8 digits." and
    "PINs do not match.". *)
Inductive set_pin_error := DigitsOnly | BadLength | Mismatch.

(** What happens to the dialog of [prompt_set_pin] until its window is
    destroyed: a press of "Set PIN" with the two entry texts of that
    moment, or a Cancel. *)
Inductive set_pin_event :=
  | Confirm (pin_text confirm_text : string)
  | CancelSet.

Section WithSha256.
Context `{Sha256}.

(** [on_confirm()]; [rnd] is what [os.urandom(16)] returns. *)
Definition on_confirm (pin_text confirm_text : string) (rnd : list Byte.byte)
  : set_pin_error + string :=
  let pin := strip pin_text in
  let confirm := strip confirm_text in
  if negb (isdigit pin) then inl DigitsOnly
  else if negb ((4 <=? String.length pin)%nat && (String.length pin <=? 8)%nat)
  then inl BadLength
  else if negb (String.eqb pin confirm) then inl Mismatch
  else inr (_hash_pin pin None rnd).

(** [prompt_set_pin(username)]: the hash record, or [None] when the
    window goes without an accepted PIN. *)
Fixpoint prompt_set_pin (username : string) (events : list set_pin_event)
    (rnd : list Byte.byte) : option string :=
  match events with
  | [] => None
  | CancelSet :: _ => None
  | Confirm pin_text confirm_text :: rest =>
      match on_confirm pin_text confirm_text rnd with
      | inr h => Some h
      | inl _ => prompt_set_pin username rest rnd
      end
  end.

End WithSha256.

End PinSetup.

(** ** audit.py *)

Module Audit.
Import Clock.

Record audit_row := AuditRow {
  audit_timestamp : timestamp;
  audit_action : string;
  audit_performed_by : string;
  audit_target_user : string;
  audit_details : string
}.

(** The [audit] table in rowid order, [None] when the database has no
    such table ([create_tables] does not create it). *)
Abbreviation audit_table := (option (list audit_row)).

(** [log_action]: a database error is printed and swallowed. *)
Definition log_action (action performed_by target_user details : string)
    (now : datetime) (t : audit_table) : audit_table :=
  match t with
  | Some rows =>
      Some (rows ++ [AuditRow (strftime now) action performed_by target_user details])
  | None => None
  end.

(** How [get_audit_log] ends: with the rows, or with one of the two
    exceptions it does not catch. *)
Inductive audit_result :=
  | Rows (rows : list audit_row)
  | OperationalError
  | OverflowError.

(** What SQLite accepts as an INTEGER parameter. *)
Definition sqlite_integer (z : Z) : bool :=
  (- 2 ^ 63 <=? z) && (z <=? 2 ^ 63 - 1).

(** [get_audit_log(limit)]: [ORDER BY id DESC LIMIT ?], a negative limit
    being no limit. The statement is prepared first, which raises
    [OperationalError] when the table is missing; binding a limit that
    does not fit 64 bits then raises [OverflowError]. *)
Definition get_audit_log (limit : Z) (t : audit_table) : audit_result :=
  match t with
  | None => OperationalError
  | Some rows =>
      if negb (sqlite_integer limit) then OverflowError
      else Rows (if limit <? 0 then rev rows
                 else take (Z.to_nat limit) (rev rows))
  end.

End Audit.

(** ** train_model.py *)

Module Training.

Section WithImages.
(** [R] is a face region cut out of an image. *)
Context {R : Type}.

(** A file of a user folder: [None] when [cv2.imread] cannot read it,
    else the face regions the detector finds in it. *)
Definition image_file := option (list R).

(** The loop over the files of one user folder: regions and labels
    appended. *)
Fixpoint load_folder (label : Z) (files : list image_file)
  : list (R * Z) :=
  match files with
  | [] => []
  | None :: rest => load_folder label rest
  | Some detected :: rest =>
      map (fun roi => (roi, label)) detected ++ load_folder label rest
  end.

(** The loop over the user folders, from label [label_counter] on. *)
Fixpoint load_folders (label_counter : Z)
    (folders : list (string * list image_file))
    (label_map : gmap Z string)
  : gmap Z string * list (R * Z) :=
  match folders with
  | [] => (label_map, [])
  | (user_folder, files) :: rest =>
      let label_map := <[label_counter := user_folder]> label_map in
      let samples := load_folder label_counter files in
      let '(label_map, more) := load_folders (label_counter + 1) rest label_map in
      (label_map, samples ++ more)
  end.

(** [train_model()]: [dataset_exists] is [os.path.exists("datasets")],
    [folders] the sub-directories in [os.listdir] order with their files.
    Beside the answer, what is saved: the samples the recogniser is
    trained on and the label map, or nothing. *)
Definition train_model (dataset_exists : bool)
    (folders : list (string * list image_file))
  : (bool * string) * option (list (R * Z) * gmap Z string) :=
  if negb dataset_exists
  then ((false, "Dataset folder not found! Please register users first."), None)
  else match folders with
  | [] => ((false, "No users found. Please register at least one user."), None)
  | _ =>
      let '(label_map, samples) := load_folders 0 folders ∅ in
      match samples with
      | [] => ((false, "No face data found. Try re-registering users."), None)
      | _ =>
          ((true, "Model trained successfully!" +:+ Login.newline
                  +:+ pretty (Z.of_nat (size label_map)) +:+ " user(s), "
                  +:+ pretty (Z.of_nat (length samples))
                  +:+ " face image(s) used."),
           Some (samples, label_map))
      end
  end.

End WithImages.

End Training.

(** ** register.py *)

Module Registration.
Import Clock Database Camera PinSetup.

(** The calls that change the [datasets/] directory, in the order made;
    an image is named by its folder and its file name. *)
Inductive fs_op (F : Type) :=
  | Makedirs (path : string)
  | Rmdir (path : string)
  | Imwrite (folder file : string) (img : frame F).
Arguments Makedirs {F} _.
Arguments Rmdir {F} _.
Arguments Imwrite {F} _ _ _.

(** What one call of [register_user] receives from outside. *)
Record inputs (F : Type) := Inputs {
  dataset_path_exists : bool;
  now_registered : datetime;
  camera : capture F;
  pin_events : list set_pin_event;
  salt_bytes : list Byte.byte
}.
Arguments Inputs {F} _ _ _ _ _.
Arguments dataset_path_exists {F} _.
Arguments now_registered {F} _.
Arguments camera {F} _.
Arguments pin_events {F} _.
Arguments salt_bytes {F} _.

(** [s.replace(" ", "_")]. *)
Fixpoint underscores (s : string) : string :=
  match s with
  | EmptyString => EmptyString
  | String c r =>
      String (if Ascii.eqb c " " then "_"%char else c) (underscores r)
  end.

Definition TARGET : Z := 30.

(** The capture loop: the number of images taken and the images written,
    in order. *)
Fixpoint capture_loop {F} (folder : string) (frames : list (frame F))
    (count : Z) : Z * list (fs_op F) :=
  match frames with
  | [] => (count, [])
  | fr :: rest =>
      let face_ok := negb (Nat.eqb (length (faces fr)) 0) in
      let k := Z.land (key fr) 255 in
      if (k =? 32) && face_ok then
        let count := count + 1 in
        let shot := Imwrite folder (pretty count +:+ ".jpg") fr in
        if TARGET <=? count then (count, [shot])
        else let '(n, ops) := capture_loop folder rest count in (n, shot :: ops)
      else if k =? 27 then (count, [])
      else if TARGET <=? count then (count, [])
      else capture_loop folder rest count
  end.

Section WithSha256.
Context {F : Type} `{PinAuth.Sha256}.

Definition register_user (fullname username : string) (i : inputs F)
    (users : gmap string user_row)
  : gmap string user_row * list (fs_op F) * (bool * string) :=
  if negb (Str.truthy fullname) || negb (Str.truthy username)
  then (users, [], (false, "Full name and username cannot be empty!")) else
  let username_clean := underscores (Str.strip username) in
  let dataset_path := "datasets/" +:+ username_clean in
  if dataset_path_exists i
  then (users, [],
        (false, "User '" +:+ username_clean +:+ "' already exists!")) else
  match users !! username_clean with
  | Some _ =>
      (users, [Makedirs dataset_path; Rmdir dataset_path],
       (false, "Database Error: UNIQUE constraint failed: users.username"))
  | None =>
  let users :=
    <[username_clean := UserRow fullname None (strftime (now_registered i))]>
      users in
  if negb (isOpened (camera i))
  then (users, [Makedirs dataset_path], (false, "Cannot access webcam.")) else
  let '(count, shots) := capture_loop dataset_path (stream (camera i)) 0 in
  if count =? 0
  then (users, Makedirs dataset_path :: shots ++ [Rmdir dataset_path],
        (false, "No images captured. Registration cancelled.")) else
  match prompt_set_pin username_clean (pin_events i) (salt_bytes i) with
  | None =>
      (users, Makedirs dataset_path :: shots,
       (true, "User '" +:+ username_clean +:+ "' registered with "
              +:+ pretty count +:+ " images." +:+ Login.newline +:+
              "Warning: No PIN set. You will not be able to log in until a PIN is assigned."))
  | Some pin_hash =>
      (save_pin_hash username_clean (Some pin_hash) users,
       Makedirs dataset_path :: shots,
       (true, "User '" +:+ username_clean +:+ "' registered with "
              +:+ pretty count +:+ " images and PIN set!"))
  end
  end.

End WithSha256.

End Registration.

(** * Properties *)

(** ** Timestamps *)

Section ClockFacts.
Import Clock.

Lemma strptime_strftime_le dt : strptime (strftime dt) <= dt.
Proof. unfold strptime, strftime. pose proof (Z.mod_pos_bound dt 1000000).
       pose proof (Z.div_mod dt 1000000). lia. Qed.

Lemma strptime_strftime_gt dt : dt - 1000000 < strptime (strftime dt).
Proof. unfold strptime, strftime. pose proof (Z.mod_pos_bound dt 1000000).
       pose proof (Z.div_mod dt 1000000). lia. Qed.

Lemma strftime_strptime s : strftime (strptime s) = s.
Proof. unfold strptime, strftime. apply Z.div_mul. lia. Qed.

Lemma strftime_add_whole dt s :
  strftime (strptime s + dt) = s + strftime dt.
Proof.
  unfold strptime, strftime.
  rewrite Z.add_comm, Z.div_add by lia. lia.
Qed.

End ClockFacts.

(** ** The lockout guard *)

Section LockoutFacts.
Import Clock Database.

Lemma get_lockout_absent id (t : gmap string lockout_row) :
  t !! id = None -> get_lockout id t = (0, None).
Proof. intros E. unfold get_lockout. now rewrite E. Qed.

Lemma get_lockout_reset id (t : gmap string lockout_row) :
  get_lockout id (reset_failures id t) = (0, None).
Proof. apply get_lockout_absent, lookup_delete_eq. Qed.

(** What one call of [record_failure] stores and returns. *)
Lemma record_failure_spec id now (t : gmap string lockout_row) :
  let fc := (get_lockout id t).1 + 1 in
  let lu := if 5 <=? fc then Some (strftime (now + timedelta_seconds 30))
            else None in
  record_failure id now t = (<[id := LockoutRow fc lu]> t, (fc, lu)).
Proof. unfold record_failure. now destruct (get_lockout id t). Qed.

Lemma get_lockout_record_failure id now (t : gmap string lockout_row) :
  get_lockout id (record_failure id now t).1 = (record_failure id now t).2.
Proof.
  rewrite record_failure_spec. cbn. unfold get_lockout.
  now rewrite lookup_insert_eq.
Qed.

Lemma record_failure_count id now (t : gmap string lockout_row) :
  (record_failure id now t).2.1 = (get_lockout id t).1 + 1.
Proof. now rewrite record_failure_spec. Qed.

(** The count after a run of failures. *)
Lemma record_failures_count id times (t : gmap string lockout_row) :
  (get_lockout id (record_failures id times t)).1
  = (get_lockout id t).1 + Z.of_nat (length times).
Proof.
  revert t. induction times as [|now rest IH]; intros t; cbn [record_failures length].
  - lia.
  - rewrite IH, get_lockout_record_failure, record_failure_count. lia.
Qed.

Lemma record_failures_snoc id times now (t : gmap string lockout_row) :
  record_failures id (times ++ [now]) t
  = (record_failure id now (record_failures id times t)).1.
Proof.
  revert t. induction times as [|t0 rest IH]; intros t; cbn; [reflexivity|].
  apply IH.
Qed.

(** C9. Whatever the stored state and whatever failures were recorded
    before, a call of [record_failure] stores the pair it returns; the
    count is the previous one plus one; the stored [locked_until] is null
    when the resulting count is below 5 and is the timestamp of 30 seconds
    after the call when the resulting count has reached 5; counted from an
    absent record, that happens from the fifth call on. *)
Theorem record_failure_locks_only_at_threshold
    id (t : gmap string lockout_row) times now :
  let before := record_failures id times t in
  let after := (record_failure id now before).1 in
  let fc := (record_failure id now before).2.1 in
  let lu := (record_failure id now before).2.2 in
  get_lockout id after = (fc, lu) /\
  fc = (get_lockout id before).1 + 1 /\
  (fc < 5 -> lu = None) /\
  (5 <= fc -> lu = Some (strftime (now + timedelta_seconds 30))) /\
  (t !! id = None -> fc = Z.of_nat (length times) + 1).
Proof.
  cbv zeta. rewrite get_lockout_record_failure, record_failure_spec; cbn.
  repeat split.
  - intros Hlt. destruct (Z.leb_spec 5 ((get_lockout id (record_failures id times t)).1 + 1)); [lia|reflexivity].
  - intros Hge. destruct (Z.leb_spec 5 ((get_lockout id (record_failures id times t)).1 + 1)); [reflexivity|lia].
  - intros Habs. rewrite record_failures_count, (get_lockout_absent _ _ Habs). cbn. lia.
Qed.

(** The record read back after a non-empty run of failures. *)
Lemma get_lockout_record_failures_snoc id times now (t : gmap string lockout_row) :
  let fc := (get_lockout id t).1 + Z.of_nat (length times) + 1 in
  get_lockout id (record_failures id (times ++ [now]) t)
  = (fc, if 5 <=? fc then Some (strftime (now + timedelta_seconds 30))
         else None).
Proof.
  cbv zeta. rewrite record_failures_snoc, get_lockout_record_failure.
  rewrite record_failure_spec; cbn. now rewrite record_failures_count.
Qed.

(** The answer of [is_locked_out], from what [get_lockout] reads. *)
Lemma is_locked_out_answer id now (t : gmap string lockout_row) :
  (is_locked_out id now t).2
  = match (get_lockout id t).2 with
    | Some until =>
        if now <? strptime until
        then (true, int_total_seconds (strptime until - now))
        else (false, 0)
    | None => (false, 0)
    end.
Proof.
  unfold is_locked_out. destruct (get_lockout id t) as [fc [until|]]; cbn;
    [|reflexivity].
  now destruct (now <? strptime until).
Qed.

(** C2 (as the code has it). From a record that reads as absent or reset,
    four recorded failures leave [is_locked_out] answering not locked at
    any instant. Five make it answer locked at every instant before the
    stored [locked_until], which lies more than 29 and at most 30 seconds
    after the fifth failure, and not locked from then on. The seconds it
    reports are the whole seconds left: positive exactly when at least
    one second remains, and 0 during the last second of the lockout. *)
Theorem lockout_threshold_by_instant
    id (t : gmap string lockout_row) t1 t2 t3 t4 t5 now :
  get_lockout id t = (0, None) ->
  let until := strptime (strftime (t5 + timedelta_seconds 30)) in
  let four := record_failures id [t1; t2; t3; t4] t in
  let five := record_failures id [t1; t2; t3; t4; t5] t in
  (is_locked_out id now four).2 = (false, 0) /\
  t5 + timedelta_seconds 29 < until <= t5 + timedelta_seconds 30 /\
  (now < until ->
   (is_locked_out id now five).2 = (true, int_total_seconds (until - now))) /\
  (until <= now -> (is_locked_out id now five).2 = (false, 0)) /\
  (0 < int_total_seconds (until - now) <-> now + 1000000 <= until).
Proof.
  cbv zeta. intros H0.
  pose proof (strptime_strftime_le (t5 + timedelta_seconds 30)) as Hle.
  pose proof (strptime_strftime_gt (t5 + timedelta_seconds 30)) as Hgt.
  split; [|split; [unfold timedelta_seconds in *; lia|]].
  - rewrite is_locked_out_answer.
    change [t1; t2; t3; t4] with ([t1; t2; t3] ++ [t4]).
    rewrite get_lockout_record_failures_snoc, H0. reflexivity.
  - rewrite !is_locked_out_answer.
    change [t1; t2; t3; t4; t5] with ([t1; t2; t3; t4] ++ [t5]).
    rewrite get_lockout_record_failures_snoc, H0.
    change (5 <=? (0, @None timestamp).1 + Z.of_nat (length [t1; t2; t3; t4]) + 1)
      with true.
    cbn [snd].
    split; [|split].
    + intros Hlt.
      now destruct (Z.ltb_spec now (strptime (strftime (t5 + timedelta_seconds 30))));
        [|lia].
    + intros Hge.
      now destruct (Z.ltb_spec now (strptime (strftime (t5 + timedelta_seconds 30))));
        [lia|].
    + unfold int_total_seconds. split.
      * intros Hpos.
        destruct (Z.lt_ge_cases
                    (strptime (strftime (t5 + timedelta_seconds 30)) - now)
                    1000000) as [Hsmall|]; [|lia].
        destruct (Z.lt_ge_cases
                    (strptime (strftime (t5 + timedelta_seconds 30)) - now) 0)
          as [Hneg|Hnn].
        -- pose proof (Z.quot_opp_l
                         (- (strptime (strftime (t5 + timedelta_seconds 30)) - now))
                         1000000 ltac:(lia)) as Hopp.
           rewrite Z.opp_involutive in Hopp.
           pose proof (Z.quot_pos
                         (- (strptime (strftime (t5 + timedelta_seconds 30)) - now))
                         1000000 ltac:(lia) ltac:(lia)).
           lia.
        -- rewrite Z.quot_small in Hpos by lia. lia.
      * intros Hroom. apply Z.quot_str_pos. lia.
Qed.

Lemma lockout_threshold_by_instant_witness :
  (is_locked_out "login" 12500000
     (record_failures "login" [1000000; 2000000; 3000000; 4000000] ∅)).2
  = (false, 0) /\
  (is_locked_out "login" 12500000
     (record_failures "login" [1000000; 2000000; 3000000; 4000000; 5500000] ∅)).2
  = (true, 22).
Proof.
  assert (get_lockout "login" (∅ : gmap string lockout_row) = (0, None)) as H0
    by (vm_compute; reflexivity).
  destruct (lockout_threshold_by_instant "login" ∅
              1000000 2000000 3000000 4000000 5500000 12500000 H0)
    as (Hfour & _ & Hfive & _).
  split; [exact Hfour|].
  specialize (Hfive ltac:(vm_compute; reflexivity)).
  etransitivity; [exact Hfive|]. vm_compute. reflexivity.
Defined.

(** C2 as stated fails on the code: five failures, the last one 5.5
    seconds after the start, store a lockout until second 35; asked at
    34.5 seconds [is_locked_out] answers locked with 0 seconds remaining,
    not a positive number. *)
Lemma lockout_threshold_counterexample :
  (is_locked_out "login" 34500000
     (record_failures "login" [1000000; 2000000; 3000000; 4000000; 5500000] ∅)).2
  = (true, 0).
Proof. vm_compute. reflexivity. Qed.

(** C8. When the stored [locked_until] is not later than the instant of
    the check, [is_locked_out] answers not locked with 0 seconds, and the
    record then reads as count 0 with no [locked_until]. *)
Theorem lockout_lazy_expiry
    id (t : gmap string lockout_row) fc until now :
  t !! id = Some (LockoutRow fc (Some until)) ->
  strptime until <= now ->
  (is_locked_out id now t).2 = (false, 0) /\
  get_lockout id (is_locked_out id now t).1 = (0, None).
Proof.
  intros Hrow Hpast.
  assert (E : is_locked_out id now t = (reset_failures id t, (false, 0))).
  { unfold is_locked_out, get_lockout. rewrite Hrow. cbn.
    now destruct (Z.ltb_spec now (strptime until)); [lia|]. }
  rewrite E. split; [reflexivity|apply get_lockout_reset].
Qed.

Lemma lockout_lazy_expiry_witness :
  (is_locked_out "login" 40000001 (<["login" := LockoutRow 5 (Some 40)]> ∅)).2
  = (false, 0) /\
  get_lockout "login"
    (is_locked_out "login" 40000001 (<["login" := LockoutRow 5 (Some 40)]> ∅)).1
  = (0, None).
Proof.
  apply (lockout_lazy_expiry "login" _ 5 40 40000001).
  - reflexivity.
  - vm_compute. discriminate.
Defined.

End LockoutFacts.

(** ** Strings *)

Section StrFacts.
Import Str.

Lemma all_chars_impl (p q : ascii -> bool) s :
  (forall c, p c = true -> q c = true) ->
  all_chars p s = true -> all_chars q s = true.
Proof.
  intros Hpq. induction s as [|c r IH]; simpl; [reflexivity|].
  rewrite !andb_true_iff. intros [? ?]. split; [apply Hpq|apply IH]; assumption.
Qed.

Lemma all_chars_app p a b :
  all_chars p (a +:+ b) = all_chars p a && all_chars p b.
Proof.
  induction a as [|c r IH]; simpl; [reflexivity|]. now rewrite IH, andb_assoc.
Qed.

Lemma split1_app sep a b :
  all_chars (differs sep) a = true ->
  split1 sep (a +:+ String sep b) = Some (a, b).
Proof.
  induction a as [|c r IH]; simpl.
  - intros _. now rewrite Ascii.eqb_refl.
  - unfold differs at 1. rewrite andb_true_iff, negb_true_iff.
    intros [-> Hr]. now rewrite (IH Hr).
Qed.

Lemma rsplit1_none sep b :
  all_chars (differs sep) b = true -> rsplit1 sep b = None.
Proof.
  induction b as [|c r IH]; simpl; [reflexivity|].
  unfold differs at 1. rewrite andb_true_iff, negb_true_iff.
  intros [-> Hr]. now rewrite (IH Hr).
Qed.

Lemma rsplit1_app sep a b :
  all_chars (differs sep) b = true ->
  rsplit1 sep (a +:+ String sep b) = Some (a, b).
Proof.
  intros Hb. induction a as [|c r IH]; simpl.
  - now rewrite (rsplit1_none _ _ Hb), Ascii.eqb_refl.
  - now rewrite IH.
Qed.

Lemma lstrip_id s :
  all_chars (fun c => negb (is_space c)) s = true -> lstrip s = s.
Proof.
  destruct s as [|c r]; simpl; [reflexivity|].
  rewrite andb_true_iff, negb_true_iff. now intros [-> _].
Qed.

Lemma rstrip_id s :
  all_chars (fun c => negb (is_space c)) s = true -> rstrip s = s.
Proof.
  induction s as [|c r IH]; simpl; [reflexivity|].
  rewrite andb_true_iff, negb_true_iff. intros [Hc Hr].
  rewrite (IH Hr), Hc. now destruct r.
Qed.

Lemma strip_id s :
  all_chars (fun c => negb (is_space c)) s = true -> strip s = s.
Proof. intros Hs. unfold strip. now rewrite (lstrip_id _ Hs), rstrip_id. Qed.

Lemma hex_byte_chars b :
  is_hex_char (hexdigit (Byte.to_N b / 16))
  && is_hex_char (hexdigit (Byte.to_N b mod 16)) = true.
Proof. destruct b; vm_compute; reflexivity. Qed.

Lemma hex_chars bs : all_chars is_hex_char (hex bs) = true.
Proof.
  induction bs as [|b r IH]; cbn [hex all_chars]; [reflexivity|].
  pose proof (hex_byte_chars b) as Hb. apply andb_true_iff in Hb as [-> ->].
  now rewrite IH.
Qed.

(** A hexadecimal digit is ASCII and is neither a separator of the
    program nor white space. *)
Lemma hex_char_plain c :
  is_hex_char c = true ->
  is_ascii_char c && differs "$" c && differs "." c && negb (is_space c)
  = true.
Proof.
  destruct c as [[] [] [] [] [] [] [] []]; vm_compute; try reflexivity;
    intros; assumption.
Qed.

Lemma hex_isascii bs : isascii (hex bs) = true.
Proof.
  eapply all_chars_impl; [|apply hex_chars]. intros c Hc.
  apply hex_char_plain in Hc. rewrite !andb_true_iff in Hc. tauto.
Qed.

Lemma hex_no sep bs :
  sep = "$"%char \/ sep = "."%char -> all_chars (differs sep) (hex bs) = true.
Proof.
  intros Hsep. eapply all_chars_impl; [|apply hex_chars]. intros c Hc.
  apply hex_char_plain in Hc. rewrite !andb_true_iff in Hc.
  destruct Hsep as [-> | ->]; tauto.
Qed.

Lemma hex_no_space bs :
  all_chars (fun c => negb (is_space c)) (hex bs) = true.
Proof.
  eapply all_chars_impl; [|apply hex_chars]. intros c Hc.
  apply hex_char_plain in Hc. rewrite !andb_true_iff in Hc. tauto.
Qed.

Lemma unhex_byte b :
  (16 * unhexdigit (hexdigit (Byte.to_N b / 16))
   + unhexdigit (hexdigit (Byte.to_N b mod 16)))%N = Byte.to_N b.
Proof. destruct b; vm_compute; reflexivity. Qed.

Lemma hex_inj a b : hex a = hex b -> a = b.
Proof.
  revert b. induction a as [|x a IH]; intros [|y b]; cbn [hex];
    try discriminate; [reflexivity|].
  intros E. injection E as E1 E2 E3.
  f_equal; [|now apply IH].
  pose proof (unhex_byte x) as Hx. pose proof (unhex_byte y) as Hy.
  rewrite E1, E2, Hy in Hx.
  pose proof (Byte.of_to_N x) as Ox. pose proof (Byte.of_to_N y) as Oy.
  rewrite <- Hx in Ox. congruence.
Qed.

Lemma length_hex bs : String.length (hex bs) = (2 * length bs)%nat.
Proof. induction bs as [|b r IH]; cbn [hex String.length length]; lia. Qed.

Lemma rsplit1_some sep s a b :
  rsplit1 sep s = Some (a, b) -> s = a +:+ String sep b.
Proof.
  revert a. induction s as [|c r IH]; intros a; simpl; [discriminate|].
  destruct (rsplit1 sep r) as [[a' b']|].
  - intros [= <- <-]. simpl. now rewrite (IH a' eq_refl).
  - destruct (Ascii.eqb_spec c sep) as [->|]; [|discriminate].
    now intros [= <- <-].
Qed.

Lemma rsplit1_app_cases sep x y :
  rsplit1 sep (x +:+ String sep y)
  = match rsplit1 sep y with
    | Some (a, b) => Some (x +:+ String sep a, b)
    | None => Some (x, y)
    end.
Proof.
  induction x as [|c r IH]; simpl.
  - destruct (rsplit1 sep y) as [[a b]|]; [reflexivity|].
    now rewrite Ascii.eqb_refl.
  - rewrite IH. now destruct (rsplit1 sep y) as [[a b]|].
Qed.

Lemma length_app_string a b :
  String.length (a +:+ b) = (String.length a + String.length b)%nat.
Proof. induction a as [|c r IH]; simpl; [reflexivity|]. now rewrite IH. Qed.

End StrFacts.

(** ** The PIN verifier *)

Section PinFacts.
Import Str PinAuth.
Context `{Sha256}.

(** [verify_pin] against a record made by [_hash_pin] with a drawn salt
    compares the two digests. *)
Lemma verify_pin_hash_pin pin candidate rnd :
  verify_pin candidate (_hash_pin pin None rnd)
  = String.eqb (hex (sha256 (hex rnd +:+ candidate)))
               (hex (sha256 (hex rnd +:+ pin))).
Proof.
  unfold verify_pin, _hash_pin.
  rewrite split1_app by (apply hex_no; now left).
  destruct (String.eqb_spec (hex (sha256 (hex rnd +:+ candidate)))
                            (hex (sha256 (hex rnd +:+ pin)))) as [E|N].
  - rewrite E. apply String.eqb_refl.
  - apply String.eqb_neq. intros E. apply N.
    apply (inj (String.app (hex rnd))) in E. congruence.
Qed.

(** C5. With a collision-free digest, for every PIN (so for every
    all-digit PIN of 4 to 8 characters) and every salt drawn by
    [_hash_pin], verifying the PIN against its own record succeeds and
    verifying any different string against it fails. *)
Theorem pin_round_trip pin wrong_pin rnd :
  (forall a b, sha256 a = sha256 b -> a = b) ->
  wrong_pin <> pin ->
  verify_pin pin (_hash_pin pin None rnd) = true /\
  verify_pin wrong_pin (_hash_pin pin None rnd) = false.
Proof.
  intros Hinj Hne. rewrite !verify_pin_hash_pin. split.
  - apply String.eqb_refl.
  - apply String.eqb_neq. intros E. apply hex_inj, Hinj in E.
    apply (inj (String.app (hex rnd))) in E. contradiction.
Qed.

End PinFacts.

Lemma pin_round_trip_witness :
  @PinAuth.verify_pin Reference.plain_digest "4242"
    (@PinAuth._hash_pin Reference.plain_digest "4242" None [Byte.x3c; Byte.xa7])
  = true /\
  @PinAuth.verify_pin Reference.plain_digest "4243"
    (@PinAuth._hash_pin Reference.plain_digest "4242" None [Byte.x3c; Byte.xa7])
  = false.
Proof.
  apply (@pin_round_trip Reference.plain_digest "4242" "4243" [Byte.x3c; Byte.xa7]).
  - intros a b E.
    rewrite <- (String.string_of_list_byte_of_string a),
            <- (String.string_of_list_byte_of_string b).
    exact (f_equal String.string_of_list_byte E).
  - discriminate.
Defined.

(** ** The session issuer *)

Section SessionFacts.
Import Clock Str Session.
Context `{Hmac} `{PayloadCodec}.

(** Once [_get_secret_key] has run, the key no longer changes. *)
Lemma secret_key_stable rnd rnd' kf :
  _get_secret_key rnd' (_get_secret_key rnd kf).2 = _get_secret_key rnd kf.
Proof.
  destruct kf as [content|]; cbn; [reflexivity|].
  now rewrite strip_id by apply hex_no_space.
Qed.

Lemma sign_eq msg rnd kf :
  _sign msg rnd kf
  = (hex (hmac_sha256 (_get_secret_key rnd kf).1 msg), (_get_secret_key rnd kf).2).
Proof. unfold _sign. now destruct (_get_secret_key rnd kf). Qed.

Lemma sign_stable msg msg' rnd rnd' kf :
  _sign msg' rnd' (_sign msg rnd kf).2
  = (hex (hmac_sha256 (_get_secret_key rnd kf).1 msg'), (_sign msg rnd kf).2).
Proof. rewrite !sign_eq. cbn. now rewrite secret_key_stable. Qed.

Lemma compare_digest_hex a b :
  compare_digest (hex a) (hex b) = Return (String.eqb (hex a) (hex b)).
Proof. unfold compare_digest. now rewrite !hex_isascii. Qed.

Lemma create_session_eq user now_e now_c rnd_n rnd_k st :
  let p := Payload user (strftime now_c)
             (strftime (now_e + timedelta_minutes SESSION_DURATION_MINUTES))
             (hex rnd_n) in
  let sig := (_sign (dumps_b64 p) rnd_k (key_file st)).1 in
  let token := dumps_b64 p +:+ String "." sig in
  create_session user now_e now_c rnd_n rnd_k st
  = (Store (_sign (dumps_b64 p) rnd_k (key_file st)).2
           (sessions st ++ [SessionRow user token (created_at p) (expires_at p) 1]),
     token).
Proof.
  cbv zeta. unfold create_session.
  now destruct (_sign _ rnd_k (key_file st)).
Qed.

Lemma select_active_app token rows rows' :
  select_active token (rows ++ rows')
  = match select_active token rows with
    | Some a => Some a
    | None => select_active token rows'
    end.
Proof.
  induction rows as [|r rest IH]; cbn; [reflexivity|].
  now destruct (String.eqb (row_token r) token).
Qed.

Lemma deactivate_token token r : row_token (deactivate token r) = row_token r.
Proof. unfold deactivate. now destruct (String.eqb (row_token r) token). Qed.

Lemma deactivate_idem token r :
  deactivate token (deactivate token r) = deactivate token r.
Proof.
  unfold deactivate. destruct (String.eqb (row_token r) token) eqn:E; cbn;
    now rewrite E.
Qed.

Lemma invalidate_session_idem token st :
  invalidate_session token (invalidate_session token st)
  = invalidate_session token st.
Proof.
  unfold invalidate_session. cbn. f_equal. rewrite map_map.
  apply map_ext. intros r. apply deactivate_idem.
Qed.

Lemma invalidate_session_inactive token st row :
  In row (sessions (invalidate_session token st)) ->
  row_token row = token -> row_active row = 0.
Proof.
  cbn. rewrite in_map_iff. intros [r [<- _]]. unfold deactivate.
  destruct (String.eqb_spec (row_token r) token); [reflexivity|contradiction].
Qed.

Lemma select_active_invalidated token rows :
  select_active token (map (deactivate token) rows)
  = match select_active token rows with Some _ => Some 0 | None => None end.
Proof.
  induction rows as [|r rest IH]; cbn; [reflexivity|].
  rewrite deactivate_token.
  destruct (String.eqb (row_token r) token) eqn:E; [|exact IH].
  unfold deactivate. now rewrite E.
Qed.

(** [validate_session] on a token whose signature part is the signature of
    its payload part and whose payload decodes. *)
Lemma validate_signed encoded p now rnd rnd0 kf0 rows :
  let kf := (_sign encoded rnd0 kf0).2 in
  let token := encoded +:+ String "." (_sign encoded rnd0 kf0).1 in
  loads_b64 encoded = Some p ->
  validate_session token now rnd (Store kf rows)
  = if strptime (expires_at p) <? now
    then (invalidate_session token (Store kf rows), Return None)
    else (Store kf rows,
          match select_active token rows with
          | Some 1 => Return (Some p)
          | _ => Return None
          end).
Proof.
  cbv zeta. intros Hp. unfold validate_session.
  rewrite (sign_eq encoded rnd0 kf0). cbn [fst snd].
  rewrite rsplit1_app by (apply hex_no; now right).
  cbn [key_file sessions]. rewrite sign_eq, secret_key_stable.
  rewrite compare_digest_hex, String.eqb_refl, Hp.
  destruct (strptime (expires_at p) <? now); [reflexivity|].
  now destruct (select_active _ rows) as [[|[]|]|].
Qed.

(** C3 (as the code has it). Let a token be created with the clock reading
    [now_e] when its expiry is computed, let its payload decode back, and
    let no earlier row carry the same token. The stored [expires_at] is
    [now_e] plus 30 minutes cut to the whole second. [validate_session]
    returns the payload at every instant up to and including that second,
    and at every later instant returns invalid and deactivates the row. *)
Theorem session_validity_window user now_e now_c rnd_n rnd_k rnd st now :
  let p := Payload user (strftime now_c)
             (strftime (now_e + timedelta_minutes 30)) (hex rnd_n) in
  let created := create_session user now_e now_c rnd_n rnd_k st in
  let expires := strptime (expires_at p) in
  loads_b64 (dumps_b64 p) = Some p ->
  select_active created.2 (sessions st) = None ->
  now_e + timedelta_minutes 30 - 1000000 < expires <= now_e + timedelta_minutes 30 /\
  (now <= expires ->
   validate_session created.2 now rnd created.1 = (created.1, Return (Some p))) /\
  (expires < now ->
   validate_session created.2 now rnd created.1
   = (invalidate_session created.2 created.1, Return None)).
Proof.
  cbv zeta. intros Hp Hfresh.
  split; [split; [apply strptime_strftime_gt|apply strptime_strftime_le]|].
  rewrite create_session_eq in *. cbn [fst snd] in *.
  unfold SESSION_DURATION_MINUTES in *.
  set (p := Payload _ _ _ _) in *.
  rewrite (validate_signed _ p) by exact Hp.
  rewrite select_active_app, Hfresh. cbn [select_active row_token row_active].
  rewrite String.eqb_refl.
  split; intros Hnow.
  - destruct (Z.ltb_spec (strptime (expires_at p)) now); [lia|reflexivity].
  - destruct (Z.ltb_spec (strptime (expires_at p)) now); [reflexivity|lia].
Qed.

(** C7. Let a token split into a payload part and a signature part, let
    the signature verify, the payload decode, and its [expires_at] lie
    before the instant of the validation. Then [validate_session] returns
    invalid and leaves every row of that token inactive (and the other
    rows as they were); [invalidate_session] is idempotent; and a second
    validation, at any instant, or a revocation leaves the state as the
    first validation made it. *)
Theorem expired_session_is_invalidated token encoded sig p now rnd st :
  rsplit1 "." token = Some (encoded, sig) ->
  compare_digest (_sign encoded rnd (key_file st)).1 sig = Return true ->
  loads_b64 encoded = Some p ->
  strptime (expires_at p) < now ->
  let st1 := (validate_session token now rnd st).1 in
  (validate_session token now rnd st).2 = Return None /\
  sessions st1 = map (deactivate token) (sessions st) /\
  (forall row, In row (sessions st1) -> row_token row = token ->
               row_active row = 0) /\
  (forall st0, invalidate_session token (invalidate_session token st0)
               = invalidate_session token st0) /\
  invalidate_session token st1 = st1 /\
  (forall now' rnd', validate_session token now' rnd' st1 = (st1, Return None)).
Proof.
  cbv zeta. intros Hsplit Hsig Hp Hnow.
  assert (E1 : validate_session token now rnd st
               = (invalidate_session token
                    (Store (_sign encoded rnd (key_file st)).2 (sessions st)),
                  Return None)).
  { unfold validate_session. rewrite Hsplit.
    destruct (_sign encoded rnd (key_file st)) as [expected kf] eqn:Es.
    cbn [fst snd] in *. rewrite Hsig, Hp.
    now destruct (Z.ltb_spec (strptime (expires_at p)) now); [|lia]. }
  rewrite E1. cbn [fst snd].
  split; [reflexivity|]. split; [reflexivity|].
  split; [apply invalidate_session_inactive|].
  split; [apply invalidate_session_idem|].
  split; [apply invalidate_session_idem|].
  intros now' rnd'. unfold validate_session at 1. rewrite Hsplit.
  cbn [invalidate_session key_file sessions].
  rewrite sign_stable.
  rewrite sign_eq in Hsig. cbn [fst] in Hsig. rewrite Hsig, Hp.
  destruct (strptime (expires_at p) <? now').
  - f_equal. unfold invalidate_session. cbn. f_equal. rewrite map_map.
    apply map_ext. intros r. apply deactivate_idem.
  - rewrite select_active_invalidated.
    now destruct (select_active token (sessions st)).
Qed.

(** C6 (where the code departs from it). A token whose signature part
    holds a character that is not ASCII is not answered with invalid:
    [hmac.compare_digest] raises [TypeError], which [validate_session]
    does not catch. *)
Theorem validate_session_non_ascii_signature encoded sig now rnd st :
  all_chars (differs ".") sig = true ->
  isascii sig = false ->
  validate_session (encoded +:+ String "." sig) now rnd st
  = (Store (_sign encoded rnd (key_file st)).2 (sessions st), Raise TypeError).
Proof.
  intros Hdot Hna. unfold validate_session.
  rewrite rsplit1_app by exact Hdot.
  rewrite sign_eq. cbn [fst snd]. unfold compare_digest.
  now rewrite Hna, andb_false_r.
Qed.

(** The part of C6 the code does satisfy: with a keyed digest that is
    always 32 bytes long, a token of [create_session] whose payload part
    was changed into one whose digest under the signing key differs from
    that of the original, or whose signature part was changed into
    another ASCII string of the same length, is answered with invalid. *)
Lemma validate_session_rejects_ascii_tamper
    user now_e now_c rnd_n rnd_k rnd st now encoded' sig' :
  let p := Payload user (strftime now_c)
             (strftime (now_e + timedelta_minutes 30)) (hex rnd_n) in
  let created := create_session user now_e now_c rnd_n rnd_k st in
  let encoded := dumps_b64 p in
  let sig := (_sign encoded rnd_k (key_file st)).1 in
  (forall key a, length (hmac_sha256 key a) = 32%nat) ->
  (hmac_sha256 (_get_secret_key rnd_k (key_file st)).1 encoded'
   <> hmac_sha256 (_get_secret_key rnd_k (key_file st)).1 encoded /\
   sig' = sig) \/
  (encoded' = encoded /\ sig' <> sig /\
   String.length sig' = String.length sig /\ isascii sig' = true) ->
  validate_session (encoded' +:+ String "." sig') now rnd created.1
  = (created.1, Return None).
Proof.
  cbv zeta. intros Hlen Hcase.
  rewrite create_session_eq. cbn [fst snd].
  unfold SESSION_DURATION_MINUTES.
  set (p := Payload _ _ _ _) in *. set (rows := sessions st ++ _).
  rewrite sign_eq in *. cbn [fst snd] in *.
  set (key := (_get_secret_key rnd_k (key_file st)).1) in *.
  unfold validate_session. rewrite rsplit1_app_cases.
  cbn [key_file sessions].
  destruct Hcase as [[Hne ->] | (-> & Hne & Hl & Hascii)].
  - rewrite rsplit1_none by (apply hex_no; now right).
    rewrite sign_eq, secret_key_stable. cbn [fst snd]. fold key.
    rewrite compare_digest_hex.
    destruct (String.eqb_spec (hex (hmac_sha256 key encoded'))
                              (hex (hmac_sha256 key (dumps_b64 p)))) as [E|_];
      [|reflexivity].
    apply hex_inj in E. contradiction.
  - destruct (rsplit1 "." sig') as [[a b]|] eqn:Es.
    + rewrite sign_eq, secret_key_stable. cbn [fst snd]. fold key.
      apply rsplit1_some in Es. subst sig'.
      unfold isascii in Hascii. rewrite all_chars_app in Hascii.
      apply andb_true_iff in Hascii as [_ Hb]. simpl in Hb.
      unfold compare_digest. rewrite hex_isascii. unfold isascii at 1.
      rewrite Hb. cbn [andb].
      destruct (String.eqb_spec (hex (hmac_sha256 key (dumps_b64 p +:+ String "." a))) b)
        as [E|_]; [|reflexivity].
      rewrite length_app_string in Hl. simpl in Hl.
      rewrite <- E, !length_hex, !Hlen in Hl. lia.
    + rewrite sign_eq, secret_key_stable. cbn [fst snd]. fold key.
      unfold compare_digest. rewrite hex_isascii, Hascii. cbn [andb].
      destruct (String.eqb_spec (hex (hmac_sha256 key (dumps_b64 p))) sig')
        as [E|_]; [|reflexivity].
      now symmetry in E.
Qed.

End SessionFacts.

Lemma session_validity_window_witness :
  let created :=
    @Session.create_session Reference.plain_mac Reference.csv_codec
      "alice" 500000 600000 [Byte.x01] [Byte.xff] (Session.Store None []) in
  (@Session.validate_session Reference.plain_mac Reference.csv_codec
     created.2 1800000000 [] created.1).2
  = Session.Return (Some (Session.Payload "alice" 0 1800 "01")) /\
  (@Session.validate_session Reference.plain_mac Reference.csv_codec
     created.2 1800000001 [] created.1).2
  = Session.Return None.
Proof.
  cbv zeta.
  pose proof (@session_validity_window Reference.plain_mac Reference.csv_codec
                "alice" 500000 600000 [Byte.x01] [Byte.xff] []
                (Session.Store None []) 1800000000 eq_refl eq_refl)
    as (_ & Hin & _).
  pose proof (@session_validity_window Reference.plain_mac Reference.csv_codec
                "alice" 500000 600000 [Byte.x01] [Byte.xff] []
                (Session.Store None []) 1800000001 eq_refl eq_refl)
    as (_ & _ & Hout).
  split.
  - exact (f_equal snd (Hin ltac:(vm_compute; discriminate))).
  - exact (f_equal snd (Hout ltac:(vm_compute; reflexivity))).
Defined.

(** C3 as stated fails on the code: a token created at a whole second is
    still accepted at exactly 30 minutes after its creation, and a token
    created half a second after a whole second is already rejected 0.3
    seconds before its 30 minutes have passed. *)
Lemma session_validity_window_counterexample :
  (let created :=
     @Session.create_session Reference.plain_mac Reference.csv_codec
       "alice" 0 0 [Byte.x01] [Byte.xff] (Session.Store None []) in
   (@Session.validate_session Reference.plain_mac Reference.csv_codec
      created.2 (0 + Clock.timedelta_minutes 30) [] created.1).2
   = Session.Return (Some (Session.Payload "alice" 0 1800 "01"))) /\
  (let created :=
     @Session.create_session Reference.plain_mac Reference.csv_codec
       "alice" 500000 500000 [Byte.x01] [Byte.xff] (Session.Store None []) in
   500000 <= 1800200000 < 500000 + Clock.timedelta_minutes 30 /\
   (@Session.validate_session Reference.plain_mac Reference.csv_codec
      created.2 1800200000 [] created.1).2
   = Session.Return None).
Proof. vm_compute. intuition discriminate. Qed.

Lemma validate_session_non_ascii_signature_witness :
  let created :=
    @Session.create_session Reference.plain_mac Reference.csv_codec
      "alice" 0 0 [Byte.x01] [Byte.xff] (Session.Store None []) in
  let tampered :=
    Str.flip_bit (String.length created.2 - 1) 7 created.2 in
  (@Session.validate_session Reference.plain_mac Reference.csv_codec
     tampered 1000000 [] created.1).2
  = Session.Raise Session.TypeError.
Proof.
  cbv zeta.
  exact (f_equal snd
    (@validate_session_non_ascii_signature
       Reference.plain_mac Reference.csv_codec
       "0,1800,01,alice"
       (Str.flip_bit 35 7 "66663a302c313830302c30312c616c696365")
       1000000 []
       (@Session.create_session Reference.plain_mac Reference.csv_codec
          "alice" 0 0 [Byte.x01] [Byte.xff] (Session.Store None [])).1
       eq_refl eq_refl)).
Defined.

(** ** The blink state machine *)

Section LivenessFacts.
Import Float Camera Liveness.
Context {F : Type} `{FloatOps F}.

Lemma run_snoc frames f (s : blink_state F) :
  run (frames ++ [f]) s = process_frame f (run frames s).
Proof. unfold run. now rewrite fold_left_app. Qed.

Lemma judgements_snoc frames f (s : blink_state F) :
  judgements (frames ++ [f]) s = judgements frames s ++ [judged f (run frames s)].
Proof.
  revert s. induction frames as [|g rest IH]; intros s; cbn; [reflexivity|].
  now rewrite IH.
Qed.

Lemma closed_span_snoc js j :
  closed_span (js ++ [j])
  = match j with
    | Some true => closed_span js + 1
    | Some false => 0
    | None => closed_span js
    end.
Proof.
  unfold closed_span. rewrite rev_app_distr. cbn [rev app until_open].
  destruct j as [[|]|]; cbn [is_open until_open]; [|reflexivity|].
  - rewrite filter_cons_True by reflexivity. cbn [length]. lia.
  - now rewrite filter_cons_False by discriminate.
Qed.

Lemma closed_span_nonneg js : 0 <= closed_span js.
Proof. unfold closed_span. lia. Qed.

Lemma count_blinks_snoc seen js j :
  count_blinks seen (js ++ [j])
  = count_blinks seen js
    + (if is_open j && (2 <=? closed_span (seen ++ js)) then 1 else 0).
Proof.
  revert seen. induction js as [|k rest IH]; intros seen; cbn [app count_blinks].
  - rewrite app_nil_r. lia.
  - rewrite IH, <- app_assoc. cbn [app]. lia.
Qed.

(** One step, read through the judgement made on the frame. *)
Lemma process_frame_cases f (s : blink_state F) :
  let s' := process_frame f s in
  let counted := (CONSEC_CLOSED <=? consec_closed s) && negb (eye_was_open s) in
  frame_count s' = frame_count s + 1 /\
  match judged f s with
  | None =>
      blink_count s' = blink_count s /\ consec_closed s' = consec_closed s /\
      eye_was_open s' = eye_was_open s /\ ratio_history s' = ratio_history s
  | Some true =>
      blink_count s' = blink_count s /\
      consec_closed s' = consec_closed s + 1 /\ eye_was_open s' = false
  | Some false =>
      blink_count s' = blink_count s + (if counted then 1 else 0) /\
      consec_closed s' = 0 /\ eye_was_open s' = true /\
      (counted = true -> ratio_history s' = [])
  end.
Proof.
  cbv zeta. unfold process_frame, judged.
  destruct (live_eyes f) as [[l r]|]; [|cbn; tauto].
  unfold track_eyes. cbn [ratio_history consec_closed eye_was_open blink_count frame_count].
  destruct (eye_closed (push_ratio l r (ratio_history s))); [cbn; tauto|].
  destruct ((CONSEC_CLOSED <=? consec_closed s) && negb (eye_was_open s));
    cbn; repeat split; try lia; discriminate.
Qed.

(** The counter of closed frames is the length of the closed span seen so
    far, the flag [eye_was_open] says that this span is empty, and the
    blink counter is the number of blinks of the sequence seen so far. *)
Lemma run_invariant frames :
  let s := run frames (initial (F:=F)) in
  let js := judgements frames (initial (F:=F)) in
  consec_closed s = closed_span js /\
  eye_was_open s = (closed_span js =? 0) /\
  blink_count s = count_blinks [] js.
Proof.
  cbv zeta. induction frames as [|f frames IH] using rev_ind.
  - cbn. repeat split.
  - destruct IH as (Hc & Ho & Hb).
    rewrite run_snoc, judgements_snoc, closed_span_snoc, count_blinks_snoc.
    cbn [app].
    pose proof (process_frame_cases f (run frames initial)) as [_ Hstep].
    pose proof (closed_span_nonneg (judgements frames (initial (F:=F)))) as Hnn.
    destruct (judged f (run frames initial)) as [[|]|]; cbn [is_open andb].
    + destruct Hstep as (-> & -> & ->). rewrite Hc, Hb.
      repeat split; [|lia].
      symmetry. apply Z.eqb_neq. lia.
    + destruct Hstep as (-> & -> & -> & _). rewrite Hc, Ho, Hb.
      repeat split. unfold CONSEC_CLOSED.
      destruct (Z.leb_spec 2 (closed_span (judgements frames initial)));
        [|reflexivity].
      destruct (Z.eqb_spec (closed_span (judgements frames initial)) 0);
        [lia|reflexivity].
    + destruct Hstep as (-> & -> & -> & _). rewrite Hc, Ho, Hb.
      repeat split. lia.
Qed.

(** C4. In the state reached after any sequence of frames, the counter
    [consec_closed] is the length of the closed span that ends the
    sequence; the next frame increments the blink counter by one exactly
    when it is judged open and that span has at least 2 frames, and leaves
    it unchanged otherwise, so never after a shorter span; whenever a
    blink is counted the smoothing history is emptied; and the counter as
    a whole is the number of such transitions in the sequence. *)
Theorem blink_counted_after_two_closed_frames frames f :
  let s := run frames (initial (F:=F)) in
  let js := judgements frames (initial (F:=F)) in
  let s' := process_frame f s in
  consec_closed s = closed_span js /\
  blink_count s'
  = blink_count s
    + (if is_open (judged f s) && (2 <=? closed_span js) then 1 else 0) /\
  (closed_span js < 2 -> blink_count s' = blink_count s) /\
  (blink_count s' <> blink_count s -> ratio_history s' = []) /\
  blink_count s = count_blinks [] js.
Proof.
  cbv zeta.
  destruct (run_invariant frames) as (Hc & Ho & Hb).
  pose proof (process_frame_cases f (run frames initial)) as [_ Hstep].
  pose proof (closed_span_nonneg (judgements frames (initial (F:=F)))) as Hnn.
  assert (Hcounted :
    (CONSEC_CLOSED <=? consec_closed (run frames (initial (F:=F))))
    && negb (eye_was_open (run frames (initial (F:=F))))
    = (2 <=? closed_span (judgements frames (initial (F:=F))))).
  { rewrite Hc, Ho. unfold CONSEC_CLOSED.
    destruct (Z.leb_spec 2 (closed_span (judgements frames (initial (F:=F)))));
      [|reflexivity].
    destruct (Z.eqb_spec (closed_span (judgements frames (initial (F:=F)))) 0);
      [lia|reflexivity]. }
  rewrite Hcounted in Hstep.
  split; [exact Hc|]. split; [|split; [|split; [|exact Hb]]].
  - destruct (judged f (run frames initial)) as [[|]|]; cbn [is_open andb].
    + destruct Hstep as (-> & _). lia.
    + destruct Hstep as (-> & _). reflexivity.
    + destruct Hstep as (-> & _). lia.
  - intros Hshort.
    destruct (Z.leb_spec 2 (closed_span (judgements frames (initial (F:=F)))));
      [lia|].
    destruct (judged f (run frames initial)) as [[|]|];
      destruct Hstep as (-> & _); lia.
  - intros Hchanged.
    destruct (judged f (run frames initial)) as [[|]|].
    + destruct Hstep as (E & _). contradiction.
    + destruct Hstep as (E & _ & _ & Hclear).
      destruct (2 <=? closed_span (judgements frames (initial (F:=F))));
        [now apply Hclear|].
      rewrite E in Hchanged. lia.
    + destruct Hstep as (E & _). contradiction.
Qed.

End LivenessFacts.

(** ** The login sequence *)

Section LoginFacts.
Import Clock Database Float Camera Logger PinAuth Login.
Context {F : Type} `{FloatOps F} `{Sha256}.

(** C10 (what the code does). When the lockout gate is open, the model
    loads, the camera opens and [check_liveness] fails, [login_user]
    records one failure on the shared identifier, writes one
    [LIVENESS_FAIL] entry, answers with the attempts left or the lockout
    message, and stores no intruder snapshot, whatever frames the camera
    still holds: the camera was released before the snapshot is tried. *)
Theorem liveness_failure_path (i : inputs F) (w : world F) label_map cap :
  (is_locked_out LOCKOUT_IDENTIFIER (now_lockout_check i) (lockouts w)).2.1
  = false ->
  model_paths_exist i = true ->
  loaded_model i = inr label_map ->
  opened (camera i) = true ->
  Liveness.check_liveness (camera i) = (false, cap) ->
  let t0 :=
    (is_locked_out LOCKOUT_IDENTIFIER (now_lockout_check i) (lockouts w)).1 in
  let failure := record_failure LOCKOUT_IDENTIFIER (now_failure i) t0 in
  let entry := LogRow "UNKNOWN" "LIVENESS_FAIL" (f_lit 0) (strftime (now_log i)) in
  login_user i w
  = (World failure.1 (users w) (logs w ++ [entry]) (access_log w ++ [entry])
           (intruders w) (session_store w),
     (false, failure_message "Liveness check failed. Please blink naturally."
                             failure.2.1)).
Proof.
  cbv zeta. intros Hgate Hpaths Hmodel Hopen Hlive.
  unfold login_user.
  destruct (is_locked_out LOCKOUT_IDENTIFIER (now_lockout_check i) (lockouts w))
    as [t0 [locked secs]].
  cbn [fst snd] in *. subst locked.
  rewrite Hpaths, Hmodel. unfold isOpened. rewrite Hopen, Hlive.
  cbn [negb]. cbn [with_lockouts lockouts release opened].
  destruct (record_failure LOCKOUT_IDENTIFIER (now_failure i) t0)
    as [t1 [fc lu]].
  reflexivity.
Qed.

(** C1 (as the code has it). When the lockout gate is open, the model
    loads, the camera opens, [check_liveness] passes, the recognition loop
    ends with an accepted match for a non-empty user name, that user has a
    stored PIN hash and the PIN dialog succeeds, [login_user] deletes the
    lockout record of the shared identifier, writes one [SUCCESS] entry
    carrying the match quality, and answers success with the message
    naming the user and the quality to one decimal; the session storage
    is left as it was: no session token is issued. *)
Theorem login_success_path (i : inputs F) (w : world F)
    label_map cap1 st cap2 user quality stored_pin :
  (is_locked_out LOCKOUT_IDENTIFIER (now_lockout_check i) (lockouts w)).2.1
  = false ->
  model_paths_exist i = true ->
  loaded_model i = inr label_map ->
  opened (camera i) = true ->
  Liveness.check_liveness (camera i) = (true, cap1) ->
  recognise label_map cap1 = (st, cap2) ->
  recognized st = Some (user, quality) ->
  Str.truthy user = true ->
  get_pin_hash user (users w) = Some stored_pin ->
  prompt_verify_pin user stored_pin (pin_events i) = true ->
  let t0 :=
    (is_locked_out LOCKOUT_IDENTIFIER (now_lockout_check i) (lockouts w)).1 in
  let entry := LogRow user "SUCCESS" quality (strftime (now_log i)) in
  login_user i w
  = (World (reset_failures LOCKOUT_IDENTIFIER t0) (users w)
           (logs w ++ [entry]) (access_log w ++ [entry])
           (intruders w) (session_store w),
     (true, "Login Successful! Welcome, " +:+ user +:+ " ("
            +:+ f_format_1f quality +:+ "% confidence)")) /\
  get_lockout LOCKOUT_IDENTIFIER (reset_failures LOCKOUT_IDENTIFIER t0)
  = (0, None).
Proof.
  cbv zeta. intros Hgate Hpaths Hmodel Hopen Hlive Hrec Huser Htruthy Hpin Hok.
  split; [|apply get_lockout_reset].
  unfold login_user.
  destruct (is_locked_out LOCKOUT_IDENTIFIER (now_lockout_check i) (lockouts w))
    as [t0 [locked secs]].
  cbn [fst snd] in *. subst locked.
  rewrite Hpaths, Hmodel. unfold isOpened. rewrite Hopen, Hlive.
  cbn [negb]. rewrite Hrec.
  unfold user_recognized. rewrite Huser, Htruthy.
  cbn [with_lockouts users]. rewrite Hpin, Hok.
  reflexivity.
Qed.

End LoginFacts.

(** ** The properties on the concrete installation *)

Section Scenarios.
Import Clock Database Float Camera Logger PinAuth Login Reference.

(** A single closed frame between open ones counts no blink. *)
Example single_frame_dip_counts_nothing :
  Liveness.judgements [eyes (3#10); eyes (1#10); eyes (1#2)] Liveness.initial
  = [Some false; Some true; Some false] /\
  Liveness.blink_count
    (Liveness.run [eyes (3#10); eyes (1#10); eyes (1#2)] Liveness.initial) = 0.
Proof. split; vm_compute; reflexivity. Qed.

(** One full blink does not pass the liveness check, two do. *)
Example two_blinks_pass_liveness :
  (Liveness.check_liveness
     (Capture true [eyes (3#10); eyes 0; eyes 0; eyes (9#10)])).1 = false /\
  (Liveness.check_liveness (Capture true blinking_alice)).1 = true.
Proof. split; vm_compute; reflexivity. Qed.

Lemma liveness_failure_path_witness :
  login_user (H0:=plain_digest) cancelled_attempt alice_world
  = (World (<["login" := LockoutRow 3 None]> ∅) (users alice_world)
       [LogRow "UNKNOWN" "LIVENESS_FAIL" 0%Q 12]
       [LogRow "UNKNOWN" "LIVENESS_FAIL" 0%Q 12]
       ∅ (Session.Store None []),
     (false, "Liveness check failed. Please blink naturally. (2 attempt(s) left before lockout)")).
Proof.
  rewrite (@liveness_failure_path Q Q_float plain_digest
             cancelled_attempt alice_world (<[1 := "alice"]> ∅)
             (Capture true [eyes (3#10); face 1 (71#2)]))
    by (vm_compute; reflexivity).
  vm_compute. reflexivity.
Defined.

Lemma login_success_path_witness :
  login_user (H0:=plain_digest) good_attempt alice_world
  = (World ∅ (users alice_world)
       [LogRow "alice" "SUCCESS" (129#2)%Q 12]
       [LogRow "alice" "SUCCESS" (129#2)%Q 12]
       ∅ (Session.Store None []),
     (true, "Login Successful! Welcome, alice (64.5% confidence)")).
Proof.
  pose proof (@login_success_path Q Q_float plain_digest
                good_attempt alice_world (<[1 := "alice"]> ∅)
                (Capture true [face 1 (71#2)])
                (RecogState (Some ("alice", (129#2)%Q)) None 1)
                (Capture true [])
                "alice" (129#2)%Q alice_pin_hash) as P.
  do 10 (specialize (P ltac:(vm_compute; reflexivity))).
  destruct P as [E _]. rewrite E. vm_compute. reflexivity.
Defined.

(** C1 as stated fails on the code: after a login in which every check
    passes, the [sessions] table has no row and no signing key exists, so
    no session token was issued. *)
Lemma login_issues_no_session_counterexample :
  (login_user (H0:=plain_digest) good_attempt alice_world).2.1 = true /\
  Session.sessions
    (session_store (login_user (H0:=plain_digest) good_attempt alice_world).1)
  = [] /\
  Session.key_file
    (session_store (login_user (H0:=plain_digest) good_attempt alice_world).1)
  = None.
Proof. vm_compute. repeat split. Qed.

End Scenarios.

Lemma expired_session_is_invalidated_witness :
  let created :=
    @Session.create_session Reference.plain_mac Reference.csv_codec
      "alice" 0 0 [Byte.x01] [Byte.xff] (Session.Store None []) in
  let answer :=
    @Session.validate_session Reference.plain_mac Reference.csv_codec
      created.2 1800000001 [] created.1 in
  answer.2 = Session.Return None /\
  Session.sessions answer.1
  = [Session.SessionRow "alice" created.2 0 1800 0] /\
  @Session.validate_session Reference.plain_mac Reference.csv_codec
    created.2 1900000000 [] answer.1
  = (answer.1, Session.Return None).
Proof.
  cbv zeta.
  pose proof (@expired_session_is_invalidated
                Reference.plain_mac Reference.csv_codec
                "0,1800,01,alice.66663a302c313830302c30312c616c696365"
                "0,1800,01,alice" "66663a302c313830302c30312c616c696365"
                (Session.Payload "alice" 0 1800 "01") 1800000001 []
                (@Session.create_session Reference.plain_mac Reference.csv_codec
                   "alice" 0 0 [Byte.x01] [Byte.xff] (Session.Store None [])).1)
    as P.
  do 4 (specialize (P ltac:(vm_compute; reflexivity))).
  destruct P as (Hret & Hrows & _ & _ & _ & Hagain).
  split; [exact Hret|]. split; [exact Hrows|]. exact (Hagain 1900000000 []).
Defined.

(** * Further properties of the code *)

(** ** The lockout guard, continued *)

Section LockoutMore.
Import Clock Database.

(** X1. The three operations on one identifier leave the record of every
    other identifier as it was. *)
Theorem lockout_other_identifier_untouched
    id other now (t : gmap string lockout_row) :
  id <> other ->
  (record_failure id now t).1 !! other = t !! other /\
  reset_failures id t !! other = t !! other /\
  (is_locked_out id now t).1 !! other = t !! other.
Proof.
  intros Hne. split; [|split].
  - rewrite record_failure_spec. cbn. now apply lookup_insert_ne.
  - now apply lookup_delete_ne.
  - unfold is_locked_out. destruct (get_lockout id t) as [fc [until|]];
      [|reflexivity].
    destruct (now <? strptime until); cbn; [reflexivity|].
    now apply lookup_delete_ne.
Qed.

Lemma lockout_other_identifier_untouched_witness :
  (record_failure "login" 5000000 (<["admin" := LockoutRow 3 None]> ∅)).1 !! "admin"
  = Some (LockoutRow 3 None).
Proof.
  destruct (lockout_other_identifier_untouched "login" "admin" 5000000
              (<["admin" := LockoutRow 3 None]> ∅)) as [E _];
    [discriminate|].
  rewrite E. reflexivity.
Defined.

(** X2. A failure that brings the count to 5 or more locks for at least 29
    and at most 30 seconds: a check made up to 29 seconds after it
    answers locked, a check made 30 seconds after it or later answers not
    locked, and no check made after the failure reports more than 30
    seconds. *)
Theorem lockout_lasts_29_to_30_seconds
    id (t : gmap string lockout_row) failed now :
  4 <= (get_lockout id t).1 ->
  failed <= now ->
  let t' := (record_failure id failed t).1 in
  (now <= failed + timedelta_seconds 29 -> (is_locked_out id now t').2.1 = true) /\
  (failed + timedelta_seconds 30 <= now -> (is_locked_out id now t').2 = (false, 0)) /\
  0 <= (is_locked_out id now t').2.2 <= 30.
Proof.
  cbv zeta. intros Hfc Hnow.
  rewrite !is_locked_out_answer, get_lockout_record_failure, record_failure_spec.
  cbn [fst snd].
  destruct (Z.leb_spec 5 ((get_lockout id t).1 + 1)) as [_|]; [|lia].
  pose proof (strptime_strftime_le (failed + timedelta_seconds 30)) as Hle.
  pose proof (strptime_strftime_gt (failed + timedelta_seconds 30)) as Hgt.
  unfold timedelta_seconds in *.
  destruct (Z.ltb_spec now (strptime (strftime (failed + 30 * 1000000))))
    as [Hlt|Hge]; cbn [fst snd].
  - split; [reflexivity|]. split; [lia|].
    unfold int_total_seconds. split.
    + apply Z.quot_pos; lia.
    + apply Z.quot_le_upper_bound; lia.
  - split; [lia|]. split; [reflexivity|lia].
Qed.

Lemma lockout_lasts_29_to_30_seconds_witness :
  (is_locked_out "login" 34400000
     (record_failure "login" 5400000 (<["login" := LockoutRow 4 None]> ∅)).1).2.1
  = true /\
  (is_locked_out "login" 35400000
     (record_failure "login" 5400000 (<["login" := LockoutRow 4 None]> ∅)).1).2
  = (false, 0).
Proof.
  split.
  - apply (lockout_lasts_29_to_30_seconds "login"
             (<["login" := LockoutRow 4 None]> ∅) 5400000 34400000);
      vm_compute; discriminate.
  - apply (lockout_lasts_29_to_30_seconds "login"
             (<["login" := LockoutRow 4 None]> ∅) 5400000 35400000);
      vm_compute; discriminate.
Defined.

Lemma is_locked_out_expired id (t : gmap string lockout_row) fc until now :
  t !! id = Some (LockoutRow fc (Some until)) ->
  strptime until <= now ->
  is_locked_out id now t = (reset_failures id t, (false, 0)).
Proof.
  intros Hrow Hexp. unfold is_locked_out, get_lockout. rewrite Hrow. cbn.
  now destruct (Z.ltb_spec now (strptime until)); [lia|].
Qed.

(** X3. Expiry is lazy. Once [is_locked_out] has seen an expired lockout, the
    next failure counts as the first; a failure recorded on the expired
    record without such a check continues the old count and locks again
    at once. *)
Theorem expired_lockout_cleared_only_by_check
    id (t : gmap string lockout_row) fc until now later :
  t !! id = Some (LockoutRow fc (Some until)) ->
  strptime until <= now ->
  4 <= fc ->
  (record_failure id later (is_locked_out id now t).1).2 = (1, None) /\
  (record_failure id later t).2
  = (fc + 1, Some (strftime (later + timedelta_seconds 30))).
Proof.
  intros Hrow Hexp Hfc. split.
  - rewrite record_failure_spec. cbn [snd].
    rewrite (is_locked_out_expired id t fc until now Hrow Hexp). cbn [fst].
    rewrite get_lockout_reset. reflexivity.
  - rewrite record_failure_spec. cbn [snd]. unfold get_lockout. rewrite Hrow.
    cbn [fst fail_count].
    destruct (Z.leb_spec 5 (fc + 1)); [reflexivity|lia].
Qed.

End LockoutMore.

Lemma expired_lockout_cleared_only_by_check_witness :
  (Database.record_failure "login" 50000000
     (Database.is_locked_out "login" 41000000
        (<["login" := Database.LockoutRow 5 (Some 40)]> ∅)).1).2 = (1, None) /\
  (Database.record_failure "login" 50000000
     (<["login" := Database.LockoutRow 5 (Some 40)]> ∅)).2 = (6, Some 80).
Proof.
  apply (expired_lockout_cleared_only_by_check "login"
           (<["login" := Database.LockoutRow 5 (Some 40)]> ∅) 5 40 41000000 50000000).
  - reflexivity.
  - vm_compute. discriminate.
  - vm_compute. discriminate.
Defined.

(** ** The stored PIN hash *)

Section PinStoreFacts.
Import Database.

(** X4. [save_pin_hash] then [get_pin_hash]: for a registered user the stored
    value is read back; for an unknown user the table is left as it was
    (the UPDATE matches no row) and nothing is read; other users keep
    their value. *)
Theorem save_pin_hash_get_pin_hash username h (u : gmap string user_row) :
  (is_Some (u !! username) ->
   get_pin_hash username (save_pin_hash username h u) = h) /\
  (u !! username = None ->
   save_pin_hash username h u = u /\ get_pin_hash username u = None) /\
  (forall other, other <> username ->
   get_pin_hash other (save_pin_hash username h u) = get_pin_hash other u).
Proof.
  unfold save_pin_hash, get_pin_hash. split; [|split].
  - intros [row Hrow]. rewrite Hrow, lookup_insert_eq. reflexivity.
  - intros Hnone. now rewrite Hnone.
  - intros other Hne. destruct (u !! username) as [row|]; [|reflexivity].
    now rewrite lookup_insert_ne by congruence.
Qed.

End PinStoreFacts.

(** ** The PIN verifier, continued *)

Section PinMore.
Import Str PinAuth.
Context `{Sha256}.

Lemma split1_some sep s a b :
  split1 sep s = Some (a, b) ->
  s = a +:+ String sep b /\ all_chars (differs sep) a = true.
Proof.
  revert a. induction s as [|c r IH]; intros a; simpl; [discriminate|].
  destruct (Ascii.eqb_spec c sep) as [->|Hne].
  - intros [= <- <-]. split; reflexivity.
  - destruct (split1 sep r) as [[a' b']|]; [|discriminate].
    intros [= <- <-]. destruct (IH a' eq_refl) as [-> Ha]. split; [reflexivity|].
    simpl. rewrite Ha. unfold differs.
    destruct (Ascii.eqb_spec c sep); [contradiction|reflexivity].
Qed.

Lemma split1_none sep s :
  all_chars (differs sep) s = true -> split1 sep s = None.
Proof.
  induction s as [|c r IH]; simpl; [reflexivity|].
  unfold differs at 1. rewrite andb_true_iff, negb_true_iff.
  intros [-> Hr]. now rewrite (IH Hr).
Qed.

(** A string with a character failing [p] splits at the first such
    character. *)
Lemma all_chars_false p s :
  all_chars p s = false ->
  exists a c b, s = a +:+ String c b /\ all_chars p a = true /\ p c = false.
Proof.
  induction s as [|c r IH]; simpl; [discriminate|].
  destruct (p c) eqn:Hc; simpl.
  - intros Hr. destruct (IH Hr) as (a & c' & b & -> & Ha & Hc').
    exists (String c a), c', b. simpl. now rewrite Hc, Ha.
  - intros _. exists EmptyString, c, r. now rewrite Hc.
Qed.

Lemma app_string_assoc a b c : (a +:+ b) +:+ c = a +:+ (b +:+ c).
Proof.
  induction a as [|x a IH]; [reflexivity|].
  change (String x ((a +:+ b) +:+ c) = String x (a +:+ (b +:+ c))).
  f_equal. exact IH.
Qed.

Lemma differs_false sep c : differs sep c = false -> c = sep.
Proof.
  unfold differs. rewrite negb_false_iff. now intros ?%Ascii.eqb_eq.
Qed.

(** X5. [verify_pin] accepts exactly the records that consist of a salt free
    of the separator, the separator, and the hexadecimal digest of salt
    followed by PIN; a stored value without separator is refused, not an
    error. *)
Theorem verify_pin_accepts_exactly pin stored :
  (verify_pin pin stored = true <->
   exists salt, all_chars (differs SEPARATOR) salt = true /\
                stored = salt +:+ String SEPARATOR (hex (sha256 (salt +:+ pin)))) /\
  (all_chars (differs SEPARATOR) stored = true -> verify_pin pin stored = false).
Proof.
  split; [split|].
  - unfold verify_pin.
    destruct (split1 SEPARATOR stored) as [[salt rest]|] eqn:Es; [|discriminate].
    intros E. apply String.eqb_eq in E.
    apply split1_some in Es as [_ Hsalt].
    exists salt. split; [exact Hsalt|]. symmetry. exact E.
  - intros (salt & Hsalt & ->). unfold verify_pin.
    rewrite split1_app by exact Hsalt. apply String.eqb_refl.
  - intros Hno. unfold verify_pin. now rewrite split1_none.
Qed.

(** X6. A record made by [_hash_pin] from a caller-supplied salt that holds
    the separator is never accepted, not even for the PIN it was made
    from. *)
Theorem salt_with_separator_never_verifies pin candidate salt rnd :
  all_chars (differs SEPARATOR) salt = false ->
  verify_pin candidate (_hash_pin pin (Some salt) rnd) = false.
Proof.
  intros Hsalt.
  destruct (all_chars_false _ _ Hsalt) as (a & c & b & -> & Ha & Hc).
  apply differs_false in Hc. subst c.
  unfold verify_pin, _hash_pin.
  replace ((a +:+ String SEPARATOR b) +:+ String SEPARATOR
             (hex (sha256 ((a +:+ String SEPARATOR b) +:+ pin))))
    with (a +:+ String SEPARATOR
            (b +:+ String SEPARATOR
               (hex (sha256 ((a +:+ String SEPARATOR b) +:+ pin))))).
  2:{ symmetry. apply (app_string_assoc a (String SEPARATOR b)). }
  rewrite split1_app by exact Ha.
  apply String.eqb_neq. intros E.
  apply (inj (String.app a)) in E. injection E as E.
  pose proof (hex_no SEPARATOR (sha256 (a +:+ candidate)) (or_introl eq_refl)) as Hhex.
  rewrite E, all_chars_app in Hhex. simpl in Hhex.
  now rewrite andb_false_r in Hhex.
Qed.

(** X7. [prompt_verify_pin] answers true only when one of the submitted
    texts, stripped, is accepted by [verify_pin], and no Cancel came
    before it. *)
Theorem prompt_verify_pin_needs_correct_pin username stored events :
  prompt_verify_pin username stored events = true ->
  exists before text after,
    events = before ++ Submit text :: after /\
    verify_pin (strip text) stored = true /\
    ~ In Cancel before.
Proof.
  unfold prompt_verify_pin. generalize 3 false.
  induction events as [|e rest IH]; intros remaining closing; simpl;
    [discriminate|].
  destruct e as [text| |].
  - destruct (verify_pin (strip text) stored) eqn:Ev.
    + intros _. exists [], text, rest. repeat split; [exact Ev|intros []].
    + intros Hrest. destruct (IH _ _ Hrest) as (before & t & after & -> & Ht & Hc).
      exists (Submit text :: before), t, after. repeat split; [exact Ht|].
      intros [Hin|Hin]; [discriminate|contradiction].
  - discriminate.
  - destruct closing; [discriminate|].
    intros Hrest. destruct (IH _ _ Hrest) as (before & t & after & -> & Ht & Hc).
    exists (Elapsed :: before), t, after. repeat split; [exact Ht|].
    intros [Hin|Hin]; [discriminate|contradiction].
Qed.

(** X8. The retry budget: after three refused submissions the dialog closes
    when its scheduled destruction fires, whatever is submitted later;
    before the third refusal the passing of time closes nothing. *)
Theorem prompt_verify_pin_three_attempts username stored a b c right later :
  verify_pin (strip a) stored = false ->
  verify_pin (strip b) stored = false ->
  verify_pin (strip c) stored = false ->
  verify_pin (strip right) stored = true ->
  prompt_verify_pin username stored
    ([Submit a; Submit b; Submit c; Elapsed; Submit right] ++ later) = false /\
  prompt_verify_pin username stored
    ([Submit a; Submit b; Elapsed; Submit right] ++ later) = true.
Proof.
  intros Ha Hb Hc Hr. unfold prompt_verify_pin. simpl.
  rewrite Ha, Hb, Hc, Hr. split; reflexivity.
Qed.

End PinMore.

Lemma salt_with_separator_never_verifies_witness :
  @PinAuth.verify_pin Reference.plain_digest "4242"
    (@PinAuth._hash_pin Reference.plain_digest "4242" (Some "ab$cd") []) = false.
Proof.
  apply (@salt_with_separator_never_verifies Reference.plain_digest).
  reflexivity.
Defined.

Lemma prompt_verify_pin_needs_correct_pin_witness :
  exists before text after,
    [PinAuth.Submit "0000"; PinAuth.Elapsed; PinAuth.Submit " 4242 "]
    = before ++ PinAuth.Submit text :: after /\
    @PinAuth.verify_pin Reference.plain_digest (Str.strip text)
      Reference.alice_pin_hash = true /\
    ~ In PinAuth.Cancel before.
Proof.
  apply (@prompt_verify_pin_needs_correct_pin Reference.plain_digest "alice").
  vm_compute. reflexivity.
Defined.

Lemma prompt_verify_pin_three_attempts_witness :
  @PinAuth.prompt_verify_pin Reference.plain_digest "alice" Reference.alice_pin_hash
    ([PinAuth.Submit "1"; PinAuth.Submit "2"; PinAuth.Submit "3";
      PinAuth.Elapsed; PinAuth.Submit "4242"] ++ []) = false /\
  @PinAuth.prompt_verify_pin Reference.plain_digest "alice" Reference.alice_pin_hash
    ([PinAuth.Submit "1"; PinAuth.Submit "2";
      PinAuth.Elapsed; PinAuth.Submit "4242"] ++ []) = true.
Proof.
  apply (@prompt_verify_pin_three_attempts Reference.plain_digest);
    vm_compute; reflexivity.
Defined.

(** ** The session issuer, continued *)

Section SessionMore.
Import Clock Str Session SessionListing.
Context `{Hmac} `{PayloadCodec}.

(** The rows after a validation: as they were, or with the rows of the
    token deactivated. *)
Lemma validate_session_rows token now rnd st :
  sessions (validate_session token now rnd st).1 = sessions st \/
  sessions (validate_session token now rnd st).1
  = map (deactivate token) (sessions st).
Proof.
  unfold validate_session.
  destruct (rsplit1 "." token) as [[encoded sig]|]; [|now left].
  destruct (_sign encoded rnd (key_file st)) as [expected kf].
  destruct (compare_digest expected sig) as [[|]|e]; try (now left).
  destruct (loads_b64 encoded) as [p|]; [|now left].
  destruct (strptime (expires_at p) <? now); [now right|].
  cbn [sessions].
  destruct (select_active token (sessions st)) as [[|[]|]|]; now left.
Qed.

(** X10. A revoked token is never accepted again: at every instant the answer
    is invalid (or the error of a signature or payload that cannot be
    processed), never a payload. *)
Theorem revoked_token_never_accepted token now rnd st :
  (validate_session token now rnd (invalidate_session token st)).2 = Return None \/
  exists e,
    (validate_session token now rnd (invalidate_session token st)).2 = Raise e.
Proof.
  unfold validate_session.
  destruct (rsplit1 "." token) as [[encoded sig]|]; [|now left].
  destruct (_sign encoded rnd (key_file (invalidate_session token st)))
    as [expected kf].
  destruct (compare_digest expected sig) as [[|]|e];
    [|now left|right; now exists e].
  destruct (loads_b64 encoded) as [q|]; [|right; now exists DecodeError].
  destruct (strptime (expires_at q) <? now); [now left|].
  cbn [sessions invalidate_session]. rewrite select_active_invalidated.
  destruct (select_active token (sessions st)); now left.
Qed.

(** X11. [validate_session] never adds or removes a row, never changes
    the row of another token, and changes a row of the token at most by
    clearing its active flag. *)
Theorem session_rows_of_other_tokens_untouched token now rnd st i row :
  sessions st !! i = Some row ->
  length (sessions (validate_session token now rnd st).1) = length (sessions st) /\
  exists row',
    sessions (validate_session token now rnd st).1 !! i = Some row' /\
    (row_token row <> token -> row' = row) /\
    (row' = row \/ row' = deactivate token row).
Proof.
  intros Hrow.
  destruct (validate_session_rows token now rnd st) as [-> | ->].
  - split; [reflexivity|]. exists row. repeat split; [exact Hrow|now left].
  - split; [apply length_map|]. exists (deactivate token row).
    split; [|split; [|now right]].
    + rewrite list_lookup_fmap, Hrow. reflexivity.
    + intros Hne. unfold deactivate.
      destruct (String.eqb_spec (row_token row) token); [contradiction|reflexivity].
Qed.

(** X12. A token without the separator is answered with invalid and nothing is
    touched: no row, and no signing key is read or generated. *)
Theorem token_without_separator_rejected token now rnd st :
  all_chars (differs ".") token = true ->
  validate_session token now rnd st = (st, Return None).
Proof.
  intros Hno. unfold validate_session. now rewrite rsplit1_none.
Qed.

(** X13. The signing key is written once: when the key file exists, creating,
    validating and revoking sessions leave it as it is; when it does not,
    the first [create_session] writes the hexadecimal form of the bytes
    drawn, two characters per byte. *)
Theorem secret_key_written_once user now_e now_c rnd_n rnd_k token now rnd st :
  (forall k, key_file st = Some k ->
     key_file (create_session user now_e now_c rnd_n rnd_k st).1 = Some k /\
     key_file (validate_session token now rnd st).1 = Some k /\
     key_file (invalidate_session token st) = Some k) /\
  (key_file st = None ->
     key_file (create_session user now_e now_c rnd_n rnd_k st).1
     = Some (hex rnd_k) /\
     String.length (hex rnd_k) = (2 * length rnd_k)%nat).
Proof.
  split.
  - intros k Hk. split; [|split].
    + rewrite create_session_eq. cbn [fst key_file]. rewrite sign_eq, Hk.
      reflexivity.
    + unfold validate_session.
      destruct (rsplit1 "." token) as [[encoded sig]|]; [|exact Hk].
      rewrite sign_eq, Hk. cbn [fst snd _get_secret_key].
      destruct (compare_digest _ sig) as [[|]|e]; try reflexivity.
      destruct (loads_b64 encoded) as [p|]; [|reflexivity].
      destruct (strptime (expires_at p) <? now); [reflexivity|].
      cbn [sessions].
      destruct (select_active token (sessions st)) as [[|[]|]|]; reflexivity.
    + exact Hk.
  - intros Hnone. split; [|apply length_hex].
    rewrite create_session_eq. cbn [fst key_file]. rewrite sign_eq, Hnone.
    reflexivity.
Qed.

(** X14. Issuing a later session does not disturb an earlier one: the earlier
    token is still accepted, with its own payload, up to its expiry. *)
Theorem earlier_session_survives_later_one
    user_a now_ea now_ca rnd_na rnd_ka
    user_b now_eb now_cb rnd_nb rnd_kb rnd st now :
  let p := Payload user_a (strftime now_ca)
             (strftime (now_ea + timedelta_minutes 30)) (hex rnd_na) in
  let a := create_session user_a now_ea now_ca rnd_na rnd_ka st in
  let b := create_session user_b now_eb now_cb rnd_nb rnd_kb a.1 in
  loads_b64 (dumps_b64 p) = Some p ->
  select_active a.2 (sessions st) = None ->
  now <= strptime (expires_at p) ->
  validate_session a.2 now rnd b.1 = (b.1, Return (Some p)).
Proof.
  cbv zeta. intros Hp Hfresh Hnow.
  rewrite (create_session_eq user_b). cbn [fst snd].
  rewrite (create_session_eq user_a) in *. cbn [fst snd key_file sessions] in *.
  unfold SESSION_DURATION_MINUTES in *.
  set (p := Payload user_a _ _ _) in *.
  rewrite sign_stable. cbn [snd].
  rewrite (validate_signed _ p) by exact Hp.
  destruct (Z.ltb_spec (strptime (expires_at p)) now) as [|_]; [lia|].
  rewrite <- app_assoc, select_active_app, Hfresh.
  cbn [app select_active row_token row_active]. rewrite String.eqb_refl.
  reflexivity.
Qed.

Lemma get_active_sessions_perm st :
  get_active_sessions st
  ≡ₚ map listed (filter (fun r => row_active r = 1) (sessions st)).
Proof.
  unfold get_active_sessions. apply Permutation_map, merge_sort_Permutation.
Qed.

(** X15. [get_active_sessions] lists exactly the rows whose active flag is 1,
    newest first; whether a session has expired plays no part. *)
Theorem active_sessions_listed st :
  get_active_sessions st
  ≡ₚ map listed (filter (fun r => row_active r = 1) (sessions st)) /\
  Sorted (fun a b => b.1.2 <= a.1.2) (get_active_sessions st).
Proof.
  unfold get_active_sessions. split.
  - apply Permutation_map, merge_sort_Permutation.
  - apply (Sorted_fmap _ newer_first (fun a b => b.1.2 <= a.1.2)).
    + intros a b Hab. exact Hab.
    + apply Sorted_merge_sort. intros a b. unfold newer_first. lia.
Qed.

(** X16. A session just created is listed; once its token is revoked, no row
    of that token is. *)
Theorem active_sessions_follow_create_and_revoke
    user now_e now_c rnd_n rnd_k st :
  let created := create_session user now_e now_c rnd_n rnd_k st in
  In (user, strftime now_c, strftime (now_e + timedelta_minutes 30))
     (get_active_sessions created.1) /\
  get_active_sessions (invalidate_session created.2 created.1)
  ≡ₚ map listed
       (filter (fun r => row_active r = 1 /\ row_token r <> created.2)
               (sessions st)).
Proof.
  cbv zeta. rewrite create_session_eq. cbn [fst snd].
  unfold SESSION_DURATION_MINUTES.
  set (token := _ +:+ String "." _).
  split.
  - pose proof (get_active_sessions_perm
                (Store (_sign (dumps_b64 (Payload user (strftime now_c)
                          (strftime (now_e + timedelta_minutes 30)) (hex rnd_n)))
                          rnd_k (key_file st)).2
                   (sessions st ++ [SessionRow user token (strftime now_c)
                      (strftime (now_e + timedelta_minutes 30)) 1])))
      as Hperm.
    apply list_elem_of_In. rewrite Hperm. apply list_elem_of_In.
    cbn [sessions]. rewrite filter_app, map_app. apply in_or_app. right.
    rewrite filter_cons_True by reflexivity. now left.
  - pose proof (get_active_sessions_perm
                (invalidate_session token
                   (Store (_sign (dumps_b64 (Payload user (strftime now_c)
                             (strftime (now_e + timedelta_minutes 30)) (hex rnd_n)))
                             rnd_k (key_file st)).2
                      (sessions st ++ [SessionRow user token (strftime now_c)
                         (strftime (now_e + timedelta_minutes 30)) 1]))))
      as Hperm.
    rewrite Hperm. clear Hperm. cbn [sessions invalidate_session].
    rewrite map_app, filter_app. cbn [map].
    rewrite (filter_cons_False _ (deactivate token _)).
    2:{ unfold deactivate. cbn [row_token]. rewrite String.eqb_refl. discriminate. }
    rewrite filter_nil, app_nil_r.
    induction (sessions st) as [|r rows IH]; [reflexivity|].
    cbn [map]. unfold deactivate at 1.
    destruct (String.eqb_spec (row_token r) token) as [E|N].
    + rewrite filter_cons_False by discriminate.
      rewrite (filter_cons_False _ r) by (intros [_ ?]; contradiction).
      exact IH.
    + destruct (decide (row_active r = 1)) as [A|A].
      * rewrite !filter_cons_True by (try split; assumption).
        cbn [map]. now rewrite IH.
      * rewrite !filter_cons_False
          by (first [assumption | intros [? _]; contradiction]).
        exact IH.
Qed.

End SessionMore.

Section SessionScenarios.
Import Session Reference.

Lemma session_rows_of_other_tokens_untouched_witness :
  let a := create_session (H:=plain_mac) (H0:=csv_codec)
             "alice" 0 0 [Byte.x01] [Byte.xff] (Store None []) in
  let b := create_session (H:=plain_mac) (H0:=csv_codec)
             "bob" 5000000 5000000 [Byte.x02] [] a.1 in
  sessions (validate_session (H:=plain_mac) (H0:=csv_codec)
              b.2 1900000000 [] b.1).1 !! 0%nat
  = Some (SessionRow "alice" a.2 0 1800 1).
Proof.
  cbv zeta.
  destruct (@session_rows_of_other_tokens_untouched plain_mac csv_codec
              (create_session (H:=plain_mac) (H0:=csv_codec)
                 "bob" 5000000 5000000 [Byte.x02] []
                 (create_session (H:=plain_mac) (H0:=csv_codec)
                    "alice" 0 0 [Byte.x01] [Byte.xff] (Store None [])).1).2
              1900000000 []
              (create_session (H:=plain_mac) (H0:=csv_codec)
                 "bob" 5000000 5000000 [Byte.x02] []
                 (create_session (H:=plain_mac) (H0:=csv_codec)
                    "alice" 0 0 [Byte.x01] [Byte.xff] (Store None [])).1).1
              0%nat
              (SessionRow "alice"
                 (create_session (H:=plain_mac) (H0:=csv_codec)
                    "alice" 0 0 [Byte.x01] [Byte.xff] (Store None [])).2
                 0 1800 1)
              ltac:(vm_compute; reflexivity))
    as (_ & row' & Hrow' & Hsame & _).
  rewrite Hrow'. f_equal. apply Hsame. vm_compute. discriminate.
Defined.

Lemma token_without_separator_rejected_witness :
  validate_session (H:=plain_mac) (H0:=csv_codec)
    "not-a-token" 1000000 [Byte.x07] (Store None [])
  = (Store None [], Return None).
Proof.
  apply (@token_without_separator_rejected plain_mac csv_codec).
  reflexivity.
Defined.

Lemma earlier_session_survives_later_one_witness :
  let a := create_session (H:=plain_mac) (H0:=csv_codec)
             "alice" 0 0 [Byte.x01] [Byte.xff] (Store None []) in
  let b := create_session (H:=plain_mac) (H0:=csv_codec)
             "bob" 5000000 5000000 [Byte.x02] [] a.1 in
  validate_session (H:=plain_mac) (H0:=csv_codec) a.2 900000000 [] b.1
  = (b.1, Return (Some (Payload "alice" 0 1800 "01"))).
Proof.
  cbv zeta.
  apply (@earlier_session_survives_later_one plain_mac csv_codec
           "alice" 0 0 [Byte.x01] [Byte.xff]
           "bob" 5000000 5000000 [Byte.x02] [] [] (Store None []) 900000000).
  - vm_compute. reflexivity.
  - vm_compute. reflexivity.
  - vm_compute. discriminate.
Defined.

End SessionScenarios.

(** ** The liveness detector, continued *)

Section LivenessMore.
Import Float Camera Liveness.
Context {F : Type} `{FloatOps F}.

Lemma push_ratio_length l r (h : list F) :
  (length h <= 4)%nat ->
  (1 <= length (push_ratio l r h) <= 4)%nat.
Proof.
  intros Hh. unfold push_ratio, HISTORY_LEN.
  set (x := f_div (f_add l r) (f_lit 2)).
  assert (Hlen : length (h ++ [x]) = S (length h))
    by (rewrite length_app; cbn [length]; lia).
  destruct (Nat.ltb_spec 4 (length (h ++ [x]))) as [Hlt|Hge].
  - destruct h as [|a h]; cbn [app tail length] in *; [lia|].
    rewrite length_app in *. cbn [length] in *. lia.
  - lia.
Qed.

Lemma process_frame_history f (s : blink_state F) :
  (length (ratio_history s) <= 4)%nat ->
  (length (ratio_history (process_frame f s)) <= 4)%nat.
Proof.
  intros Hs. unfold process_frame.
  destruct (live_eyes f) as [[l r]|]; [|exact Hs].
  unfold track_eyes. cbn [ratio_history consec_closed eye_was_open].
  pose proof (push_ratio_length l r (ratio_history s) Hs) as Hp.
  destruct (eye_closed _); cbn [ratio_history]; [lia|].
  destruct (_ && _); cbn [ratio_history length]; lia.
Qed.

(** X17. The smoothing window: after any sequence of frames the history holds
    at most 4 samples, and the average that decides whether the next face
    frame is closed is taken over at least 1 and at most 4 samples. *)
Theorem smoothing_window_bounded frames l r :
  let s := run frames (initial (F:=F)) in
  (length (ratio_history s) <= 4)%nat /\
  (1 <= length (push_ratio l r (ratio_history s)) <= 4)%nat.
Proof.
  cbv zeta.
  assert (Hs : (length (ratio_history (run frames (initial (F:=F)))) <= 4)%nat).
  { induction frames as [|f frames IH] using rev_ind; [cbn; lia|].
    rewrite run_snoc. now apply process_frame_history. }
  split; [exact Hs|now apply push_ratio_length].
Qed.

Lemma process_frame_count f (s : blink_state F) :
  frame_count (process_frame f s) = frame_count s + 1.
Proof. apply (process_frame_cases f s). Qed.

Lemma run_cons f frames (s : blink_state F) :
  run (f :: frames) s = run frames (process_frame f s).
Proof. reflexivity. Qed.

(** What the loop has read when it stops. *)
Lemma liveness_loop_consumed frames (s : blink_state F) :
  exists consumed,
    frames = consumed ++ (liveness_loop frames s).2 /\
    frame_count (run consumed s) = frame_count s + Z.of_nat (length consumed) /\
    (frame_count s < MAX_FRAMES ->
     frame_count s + Z.of_nat (length consumed) <= MAX_FRAMES) /\
    ((liveness_loop frames s).1 = true ->
     REQUIRED_BLINKS <= blink_count (run consumed s)).
Proof.
  revert s. induction frames as [|f frames IH]; intros s.
  - exists []. cbn. repeat split; try lia; try discriminate.
  - cbn [liveness_loop].
    pose proof (process_frame_count f s) as Hfc.
    destruct (Z.leb_spec REQUIRED_BLINKS (blink_count (process_frame f s)))
      as [Hb|Hb]; cbn [fst snd].
    { exists [f]. cbn [app length run fold_left]. repeat split; lia. }
    destruct (Z.leb_spec MAX_FRAMES (frame_count (process_frame f s)))
      as [Hm|Hm]; cbn [fst snd].
    { exists [f]. cbn [app length run fold_left].
      repeat split; try lia; try discriminate. }
    destruct (esc_pressed f); cbn [fst snd].
    { exists [f]. cbn [app length run fold_left].
      repeat split; try lia; try discriminate. }
    destruct (IH (process_frame f s)) as (consumed & Hsplit & Hcount & Hmax & Hok).
    exists (f :: consumed). rewrite run_cons. cbn [app length].
    split; [now rewrite <- Hsplit|].
    split; [lia|]. split; [lia|exact Hok].
Qed.

(** X18. [check_liveness] reads at most 300 frames, leaves the camera open
    with the frames it has not read, in order, and answers true only
    when the frames it has read count at least 2 blinks. *)
Theorem check_liveness_reads_at_most_300_frames (cap : capture F) :
  opened cap = true ->
  exists consumed,
    stream cap = consumed ++ stream (check_liveness cap).2 /\
    opened (check_liveness cap).2 = true /\
    (length consumed <= 300)%nat /\
    ((check_liveness cap).1 = true ->
     2 <= blink_count (run consumed (initial (F:=F)))).
Proof.
  intros Hopen. unfold check_liveness. rewrite Hopen.
  destruct (liveness_loop_consumed (stream cap) (initial (F:=F)))
    as (consumed & Hsplit & _ & Hmax & Hok).
  destruct (liveness_loop (stream cap) initial) as [ok rest].
  cbn [fst snd stream opened] in *.
  exists consumed. repeat split; try assumption.
  unfold MAX_FRAMES in Hmax. cbn [frame_count initial] in Hmax. lia.
Qed.

(** Each counted blink takes two closed face frames and an open one. *)
Lemma blinks_need_face_frames frames :
  let s := run frames (initial (F:=F)) in
  0 <= consec_closed s /\
  3 * blink_count s + Z.min (consec_closed s) 2
  <= Z.of_nat (length (filter (fun f => is_Some (live_eyes f)) frames)).
Proof.
  cbv zeta. induction frames as [|f frames IH] using rev_ind.
  - cbn. lia.
  - destruct IH as [Hnn Hphi]. rewrite run_snoc, filter_app, length_app.
    pose proof (process_frame_cases f (run frames initial)) as [_ Hstep].
    unfold judged in Hstep.
    destruct (live_eyes f) as [[l r]|] eqn:Hf.
    + rewrite filter_cons_True by (rewrite Hf; eauto). cbn [length filter].
      rewrite filter_nil. cbn [length].
      destruct (eye_closed _).
      * destruct Hstep as (-> & -> & _). lia.
      * destruct Hstep as (-> & -> & _ & _). unfold CONSEC_CLOSED.
        destruct (Z.leb_spec 2 (consec_closed (run frames initial)));
          destruct (eye_was_open (run frames initial)); cbn [andb negb]; lia.
    + rewrite filter_cons_False by (rewrite Hf; intros [? ?]; discriminate).
      rewrite filter_nil. cbn [length].
      destruct Hstep as (-> & -> & _). lia.
Qed.

(** X19. A pass needs at least 6 frames in which a face was found; with no
    face in view [check_liveness] never passes. *)
Theorem liveness_pass_needs_six_face_frames (cap : capture F) :
  (check_liveness cap).1 = true ->
  exists consumed,
    stream cap = consumed ++ stream (check_liveness cap).2 /\
    (6 <= length (filter (fun f => is_Some (live_eyes f)) consumed))%nat.
Proof.
  unfold check_liveness. destruct (opened cap); [|discriminate].
  destruct (liveness_loop_consumed (stream cap) (initial (F:=F)))
    as (consumed & Hsplit & _ & _ & Hblinks).
  destruct (liveness_loop (stream cap) initial) as [ok rest].
  cbn [fst snd stream] in *. intros Hok.
  exists consumed. split; [exact Hsplit|].
  specialize (Hblinks Hok). unfold REQUIRED_BLINKS in Hblinks.
  destruct (blinks_need_face_frames consumed) as [Hnn Hphi]. lia.
Qed.

End LivenessMore.

Lemma check_liveness_reads_at_most_300_frames_witness :
  exists consumed,
    Reference.blinking_alice
    = consumed ++ Camera.stream
        (Liveness.check_liveness (Camera.Capture true Reference.blinking_alice)).2 /\
    (length consumed <= 300)%nat.
Proof.
  destruct (@check_liveness_reads_at_most_300_frames Q Reference.Q_float
              (Camera.Capture true Reference.blinking_alice) eq_refl)
    as (consumed & Hsplit & _ & Hlen & _).
  exists consumed. split; assumption.
Defined.

Lemma liveness_pass_needs_six_face_frames_witness :
  exists consumed,
    Reference.blinking_alice
    = consumed ++ Camera.stream
        (Liveness.check_liveness (Camera.Capture true Reference.blinking_alice)).2 /\
    (6 <= length (filter (fun f => is_Some (Camera.live_eyes f)) consumed))%nat.
Proof.
  apply (@liveness_pass_needs_six_face_frames Q Reference.Q_float
           (Camera.Capture true Reference.blinking_alice)).
  vm_compute. reflexivity.
Defined.

(** ** The login sequence, continued *)

Section LoginMore.
Import Clock Database Float Camera Logger PinAuth Login.
Context {F : Type} `{FloatOps F} `{Sha256}.

Lemma with_lockouts_same (w : world F) : with_lockouts (lockouts w) w = w.
Proof. now destruct w. Qed.

(** X20. While the stored lockout of the shared identifier has not expired,
    [login_user] answers with the lockout message and the seconds left
    and changes nothing: no failure is counted, nothing is logged, and
    neither the model, the camera nor the PIN dialog plays a part. *)
Theorem locked_gate_rejects_without_trace (i : inputs F) (w : world F) fc until :
  lockouts w !! LOCKOUT_IDENTIFIER = Some (LockoutRow fc (Some until)) ->
  now_lockout_check i < strptime until ->
  login_user i w
  = (w, (false,
         locked_message (int_total_seconds (strptime until - now_lockout_check i)))).
Proof.
  intros Hrow Hnow. unfold login_user, is_locked_out, get_lockout.
  rewrite Hrow. cbn [fail_count locked_until].
  destruct (Z.ltb_spec (now_lockout_check i) (strptime until)); [|lia].
  now rewrite with_lockouts_same.
Qed.

(** The three ways a call of [login_user] ends: without an attempt, with
    a failed attempt, with a success. *)
Lemma login_user_cases (i : inputs F) (w : world F) :
  let t0 :=
    (is_locked_out LOCKOUT_IDENTIFIER (now_lockout_check i) (lockouts w)).1 in
  let w' := (login_user i w).1 in
  let ok := (login_user i w).2.1 in
  users w' = users w /\ session_store w' = session_store w /\
  ((ok = false /\ lockouts w' = t0 /\ logs w' = logs w /\
    access_log w' = access_log w /\ intruders w' = intruders w) \/
   (exists user status conf,
      ok = false /\
      lockouts w' = (record_failure LOCKOUT_IDENTIFIER (now_failure i) t0).1 /\
      logs w' = logs w ++ [LogRow user status conf (strftime (now_log i))] /\
      access_log w'
      = access_log w ++ [LogRow user status conf (strftime (now_log i))] /\
      In status ["LIVENESS_FAIL"; "INTRUDER"; "FAILED"; "NO_PIN"; "WRONG_PIN"] /\
      ((status = "INTRUDER" /\
        exists fr, intruders w' = <[strftime (now_snapshot i) := fr]> (intruders w)) \/
       (status <> "INTRUDER" /\ intruders w' = intruders w))) \/
   (exists user conf,
      ok = true /\
      lockouts w' = reset_failures LOCKOUT_IDENTIFIER t0 /\
      logs w' = logs w ++ [LogRow user "SUCCESS" conf (strftime (now_log i))] /\
      access_log w'
      = access_log w ++ [LogRow user "SUCCESS" conf (strftime (now_log i))] /\
      intruders w' = intruders w)).
Proof.
  cbv zeta. unfold login_user.
  destruct (is_locked_out LOCKOUT_IDENTIFIER (now_lockout_check i) (lockouts w))
    as [t0 [locked secs]]. cbn [fst snd].
  destruct locked; [cbn; repeat split; left; repeat split|].
  destruct (model_paths_exist i); cbn [negb];
    [|cbn; repeat split; left; repeat split].
  destruct (loaded_model i) as [e|label_map];
    [cbn; repeat split; left; repeat split|].
  destruct (isOpened (camera i)); cbn [negb];
    [|cbn; repeat split; left; repeat split].
  destruct (Liveness.check_liveness (camera i)) as [[|] cap]; cbn [negb].
  - destruct (recognise label_map cap) as [st cap2].
    destruct (if user_recognized st then recognized st else None)
      as [[user quality]|].
    + cbn [with_lockouts users].
      destruct (get_pin_hash user (users w)) as [stored|].
      * destruct (prompt_verify_pin user stored (pin_events i)); cbn [negb].
        -- cbn. repeat split. right. right. exists user, quality.
           repeat split.
        -- cbn [with_log with_lockouts lockouts logs access_log log_attempt
                  users intruders session_store].
           destruct (record_failure LOCKOUT_IDENTIFIER (now_failure i) t0)
             as [t1 [fc lu]]. cbn.
           repeat split. right. left. exists user, "WRONG_PIN", quality.
           repeat split; [tauto|]. right. split; [discriminate|reflexivity].
      * cbn [with_log with_lockouts lockouts logs access_log log_attempt
               users intruders session_store].
        destruct (record_failure LOCKOUT_IDENTIFIER (now_failure i) t0)
          as [t1 [fc lu]]. cbn.
        repeat split. right. left. exists user, "NO_PIN", quality.
        repeat split; [tauto|]. right. split; [discriminate|reflexivity].
    + destruct (intruder_frame st) as [fr|];
        cbn [with_log with_snapshot with_lockouts lockouts logs access_log
             log_attempt users intruders session_store];
        destruct (record_failure LOCKOUT_IDENTIFIER (now_failure i) t0)
          as [t1 [fc lu]]; cbn; repeat split; right; left.
      * exists "UNKNOWN", "INTRUDER", (f_lit 0).
        repeat split; [tauto|]. left. split; [reflexivity|]. now exists fr.
      * exists "UNKNOWN", "FAILED", (f_lit 0).
        repeat split; [tauto|]. right. split; [discriminate|reflexivity].
  - cbn [with_lockouts lockouts release isOpened opened].
    destruct (record_failure LOCKOUT_IDENTIFIER (now_failure i) t0)
      as [t1 [fc lu]]. cbn.
    repeat split. right. left. exists "UNKNOWN", "LIVENESS_FAIL", (f_lit 0).
    repeat split; [tauto|]. right. split; [discriminate|reflexivity].
Qed.

(** X21. Whatever its inputs, [login_user] leaves the users table and the
    session storage as they are, and either logs nothing or appends one
    row to the [logs] table, stamped with the reading of the clock and
    carrying one of the six statuses; rows already there are never
    changed, and the access log receives one line exactly when the table
    receives a row. *)
Theorem login_user_logs_at_most_one_entry (i : inputs F) (w : world F) :
  let w' := (login_user i w).1 in
  users w' = users w /\ session_store w' = session_store w /\
  ((logs w' = logs w /\ length (access_log w') = length (access_log w)) \/
   exists user status conf,
     logs w' = logs w ++ [LogRow user status conf (strftime (now_log i))] /\
     length (access_log w') = S (length (access_log w)) /\
     In status ["SUCCESS"; "FAILED"; "INTRUDER"; "LIVENESS_FAIL";
                "WRONG_PIN"; "NO_PIN"]).
Proof.
  cbv zeta. destruct (login_user_cases i w) as (Hu & Hs & Hcase).
  split; [exact Hu|]. split; [exact Hs|].
  destruct Hcase as [(_ & _ & Hl & Ha & _) | [Hfail | Hok]].
  - left. now rewrite Ha.
  - destruct Hfail as (user & status & conf & _ & _ & Hl & Ha & Hin & _).
    right. exists user, status, conf. split; [exact Hl|]. split.
    + rewrite Ha, length_app. cbn [length]. lia.
    + cbn in *. tauto.
  - destruct Hok as (user & conf & _ & _ & Hl & Ha & _).
    right. exists user, "SUCCESS", conf. split; [exact Hl|]. split.
    + rewrite Ha, length_app. cbn [length]. lia.
    + now left.
Qed.

(** X22. The failure counter follows the log. After the gate's own (lazy)
    reset, a call that logs nothing leaves the lockout table alone; a
    call that logs a failure has called [record_failure] on the shared
    identifier exactly once, raising its count by one; and the call
    answers success exactly when it has logged [SUCCESS], and then the
    record of the shared identifier is gone. *)
Theorem login_user_counts_each_failure_once (i : inputs F) (w : world F) :
  let t0 :=
    (is_locked_out LOCKOUT_IDENTIFIER (now_lockout_check i) (lockouts w)).1 in
  let w' := (login_user i w).1 in
  let ok := (login_user i w).2.1 in
  (logs w' = logs w /\ ok = false /\ lockouts w' = t0) \/
  (exists user status conf,
     logs w' = logs w ++ [LogRow user status conf (strftime (now_log i))] /\
     ((status <> "SUCCESS" /\ ok = false /\
       lockouts w' = (record_failure LOCKOUT_IDENTIFIER (now_failure i) t0).1 /\
       (get_lockout LOCKOUT_IDENTIFIER (lockouts w')).1
       = (get_lockout LOCKOUT_IDENTIFIER t0).1 + 1) \/
      (status = "SUCCESS" /\ ok = true /\
       lockouts w' !! LOCKOUT_IDENTIFIER = None))).
Proof.
  cbv zeta. destruct (login_user_cases i w) as (_ & _ & Hcase).
  destruct Hcase as [(Hok & Ht & Hl & _) | [Hfail | Hok]].
  - left. repeat split; assumption.
  - destruct Hfail as (user & status & conf & Hok & Ht & Hl & _ & Hin & _).
    right. exists user, status, conf. split; [exact Hl|]. left.
    split; [|split; [exact Hok|split; [exact Ht|]]].
    + cbn in Hin. intuition (subst; discriminate).
    + rewrite Ht, get_lockout_record_failure, record_failure_count. reflexivity.
  - destruct Hok as (user & conf & Hok & Ht & Hl & _).
    right. exists user, "SUCCESS", conf. split; [exact Hl|]. right.
    split; [reflexivity|]. split; [exact Hok|].
    rewrite Ht. apply lookup_delete_eq.
Qed.

(** X23. An intruder snapshot is stored by exactly the calls that log
    [INTRUDER]: it is written under the timestamp of the clock reading,
    and every other call leaves the snapshot directory as it is. *)
Theorem snapshot_stored_only_with_intruder_entry (i : inputs F) (w : world F) :
  let w' := (login_user i w).1 in
  (intruders w' = intruders w /\
   forall user conf ts, logs w' <> logs w ++ [LogRow user "INTRUDER" conf ts]) \/
  (exists fr conf,
     intruders w' = <[strftime (now_snapshot i) := fr]> (intruders w) /\
     logs w' = logs w ++ [LogRow "UNKNOWN" "INTRUDER" conf (strftime (now_log i))]).
Proof.
  cbv zeta. unfold login_user.
  destruct (is_locked_out LOCKOUT_IDENTIFIER (now_lockout_check i) (lockouts w))
    as [t0 [locked secs]].
  assert (Hnone : forall (l : list (log_row F)) e, l <> l ++ [e]).
  { intros l e E. apply (f_equal length) in E. rewrite length_app in E.
    cbn in E. lia. }
  assert (Hother : forall (l : list (log_row F)) u s c t u' c' t',
             s <> "INTRUDER" ->
             l ++ [LogRow u s c t] <> l ++ [LogRow u' "INTRUDER" c' t']).
  { intros l u s c t u' c' t' Hs E. apply app_inv_head in E.
    injection E as _ E _ _. contradiction. }
  destruct locked; [left; cbn; split; [reflexivity|intros; apply Hnone]|].
  destruct (model_paths_exist i); cbn [negb];
    [|left; cbn; split; [reflexivity|intros; apply Hnone]].
  destruct (loaded_model i) as [e|label_map];
    [left; cbn; split; [reflexivity|intros; apply Hnone]|].
  destruct (isOpened (camera i)); cbn [negb];
    [|left; cbn; split; [reflexivity|intros; apply Hnone]].
  destruct (Liveness.check_liveness (camera i)) as [[|] cap]; cbn [negb].
  - destruct (recognise label_map cap) as [st cap2].
    destruct (if user_recognized st then recognized st else None)
      as [[user quality]|].
    + cbn [with_lockouts users].
      destruct (get_pin_hash user (users w)) as [stored|].
      * destruct (prompt_verify_pin user stored (pin_events i)); cbn [negb].
        -- left. cbn. split; [reflexivity|]. intros. now apply Hother.
        -- cbn [with_log with_lockouts lockouts logs access_log log_attempt
                  users intruders session_store].
           destruct (record_failure LOCKOUT_IDENTIFIER (now_failure i) t0)
             as [t1 [fc lu]].
           left. cbn. split; [reflexivity|]. intros. now apply Hother.
      * cbn [with_log with_lockouts lockouts logs access_log log_attempt
               users intruders session_store].
        destruct (record_failure LOCKOUT_IDENTIFIER (now_failure i) t0)
          as [t1 [fc lu]].
        left. cbn. split; [reflexivity|]. intros. now apply Hother.
    + destruct (intruder_frame st) as [fr|];
        cbn [with_log with_snapshot with_lockouts lockouts logs access_log
             log_attempt users intruders session_store];
        destruct (record_failure LOCKOUT_IDENTIFIER (now_failure i) t0)
          as [t1 [fc lu]].
      * right. exists fr, (f_lit 0). cbn. split; reflexivity.
      * left. cbn. split; [reflexivity|]. intros. now apply Hother.
  - cbn [with_lockouts lockouts release isOpened opened].
    destruct (record_failure LOCKOUT_IDENTIFIER (now_failure i) t0)
      as [t1 [fc lu]].
    left. cbn. split; [reflexivity|]. intros. now apply Hother.
Qed.

(** X24. The fifth failure locks the next attempt out. When four failures are
    counted at the gate and the call logs a failed attempt, a following
    call whose gate is reached while at least one second of the lockout
    remains is rejected with the lockout message and changes nothing. *)
Theorem fifth_failure_locks_next_attempt (i1 i2 : inputs F) (w : world F) :
  (get_lockout LOCKOUT_IDENTIFIER
     (is_locked_out LOCKOUT_IDENTIFIER (now_lockout_check i1) (lockouts w)).1).1
  = 4 ->
  (login_user i1 w).2.1 = false ->
  length (logs (login_user i1 w).1) = S (length (logs w)) ->
  now_lockout_check i2 + 1000000
  <= strptime (strftime (now_failure i1 + timedelta_seconds 30)) ->
  exists secs,
    0 < secs /\
    login_user i2 (login_user i1 w).1
    = ((login_user i1 w).1, (false, locked_message secs)).
Proof.
  intros Hfour Hfalse Hlogged Hnow.
  destruct (login_user_cases i1 w) as (_ & _ & Hcase).
  destruct Hcase as [(_ & _ & Hl & _) | [Hfail | Hok]].
  - rewrite Hl in Hlogged. lia.
  - destruct Hfail as (user & status & conf & _ & Ht & _).
    assert (Hrow : lockouts (login_user i1 w).1 !! LOCKOUT_IDENTIFIER
                   = Some (LockoutRow 5
                       (Some (strftime (now_failure i1 + timedelta_seconds 30))))).
    { rewrite Ht, record_failure_spec. cbn [fst]. rewrite lookup_insert_eq.
      rewrite Hfour. reflexivity. }
    exists (int_total_seconds
              (strptime (strftime (now_failure i1 + timedelta_seconds 30))
               - now_lockout_check i2)).
    split; [unfold int_total_seconds; apply Z.quot_str_pos; lia|].
    unfold login_user at 1, is_locked_out, get_lockout.
    rewrite Hrow. cbn [fail_count locked_until].
    destruct (Z.ltb_spec (now_lockout_check i2)
                (strptime (strftime (now_failure i1 + timedelta_seconds 30))));
      [|lia].
    now rewrite with_lockouts_same.
  - destruct Hok as (user & conf & Hok & _). congruence.
Qed.

End LoginMore.

(** ** The recognition loop *)

Section RecognitionFacts.
Import Float Camera Login.
Context {F : Type} `{FloatOps F} `{PinAuth.Sha256}.

(** One frame's faces: either no face is accepted, and the recognised
    pair is as before, or the first accepted face gives the pair and
    clears the intruder frame. *)
Lemma scan_faces_cases label_map fr predictions (st : recog_state F) :
  let st' := scan_faces label_map fr predictions st in
  frames_checked st' = frames_checked st /\
  (recognized st' = recognized st \/
   (intruder_frame st' = None /\
    exists l c, In (l, c) predictions /\
      f_ltb c CONFIDENCE_THRESHOLD = true /\
      recognized st'
      = Some (default "Unknown" (label_map !! l),
              f_max (f_lit 0) (f_sub (f_lit 100) c)))).
Proof.
  cbv zeta. revert st.
  induction predictions as [|[l c] rest IH]; intros st; cbn [scan_faces].
  - split; [reflexivity|now left].
  - destruct (f_ltb c CONFIDENCE_THRESHOLD) eqn:Hc.
    + split; [reflexivity|]. right. split; [reflexivity|].
      exists l, c. repeat split; [now left|exact Hc].
    + destruct (IH (RecogState (recognized st) (Some fr) (frames_checked st)))
        as [Hfc [Hsame | (Hnone & l' & c' & Hin & Hlt & Hrec)]].
      * split; [exact Hfc|]. left. exact Hsame.
      * split; [exact Hfc|]. right. split; [exact Hnone|].
        exists l', c'. repeat split; [now right|exact Hlt|exact Hrec].
Qed.

Lemma recognition_loop_consumed label_map frames (st : recog_state F) :
  user_recognized st = false ->
  exists consumed,
    let st' := (recognition_loop label_map frames st).1 in
    frames = consumed ++ (recognition_loop label_map frames st).2 /\
    frames_checked st' = frames_checked st + Z.of_nat (length consumed) /\
    (frames_checked st <= MAX_RECOG_FRAMES ->
     frames_checked st' <= MAX_RECOG_FRAMES) /\
    (recognized st' = recognized st \/
     exists fr l c, In fr consumed /\ In (l, c) (faces fr) /\
       f_ltb c CONFIDENCE_THRESHOLD = true /\
       recognized st'
       = Some (default "Unknown" (label_map !! l),
               f_max (f_lit 0) (f_sub (f_lit 100) c))) /\
    (user_recognized st' = true -> intruder_frame st' = None).
Proof.
  revert st. induction frames as [|fr frames IH]; intros st Hst;
    cbn [recognition_loop].
  - exists []. destruct (frames_checked st <? MAX_RECOG_FRAMES); cbn;
      (repeat split; [lia|lia|now left|congruence]).
  - destruct (Z.ltb_spec (frames_checked st) MAX_RECOG_FRAMES) as [Hlt|Hge].
    2:{ exists []. cbn. repeat split; [lia|lia|now left|congruence]. }
    set (st1 := RecogState (recognized st) (intruder_frame st)
                           (frames_checked st + 1)).
    destruct (scan_faces_cases label_map fr (faces fr) st1) as [Hfc Hscan].
    cbn [frames_checked recognized st1] in Hfc, Hscan.
    destruct (user_recognized (scan_faces label_map fr (faces fr) st1)) eqn:Hrec.
    + exists [fr]. cbn [fst snd app length]. split; [reflexivity|].
      split; [lia|]. split; [lia|].
      destruct Hscan as [Hsame | (Hnone & l & c & Hin & Hc & Hr)].
      * unfold user_recognized in Hrec, Hst. rewrite Hsame in Hrec. congruence.
      * split; [|intros _; exact Hnone].
        right. exists fr, l, c. repeat split; [now left|exact Hin|exact Hc|exact Hr].
    + destruct (esc_pressed fr).
      * exists [fr]. cbn [fst snd app length]. split; [reflexivity|].
        split; [lia|]. split; [lia|]. split; [|congruence].
        destruct Hscan as [Hsame | (_ & l & c & Hin & Hc & Hr)]; [now left|].
        right. exists fr, l, c. repeat split; [now left|exact Hin|exact Hc|exact Hr].
      * destruct (IH _ Hrec)
          as (consumed & Hsplit & Hcount & Hmax & Hfrom & Hintr).
        exists (fr :: consumed). cbn [app length].
        split; [now rewrite <- Hsplit|].
        split; [lia|]. split; [intros _; apply Hmax; lia|].
        split; [|exact Hintr].
        destruct Hfrom as [Hsame | (fr' & l & c & Hin' & Hin & Hc & Hr)].
        -- destruct Hscan as [Hsame0 | (_ & l & c & Hin & Hc & Hr)].
           ++ left. congruence.
           ++ right. exists fr, l, c.
              repeat split; [now left|exact Hin|exact Hc|congruence].
        -- right. exists fr', l, c.
           repeat split; [now right|exact Hin|exact Hc|exact Hr].
Qed.

(** X25. The recognition loop reads at most 150 frames and leaves the others
    in the camera. A recognised pair always comes from a face, in a frame
    it has read, whose distance is below the threshold: the name is the
    label map's name for the predicted label, or "Unknown" when the map
    has none, and the quality is [max(0, 100 - distance)]. When the user
    counts as recognised no intruder frame is kept. *)
Theorem recognition_accepts_only_faces_below_threshold
    label_map (cap : capture F) :
  let st := (recognise label_map cap).1 in
  exists consumed,
    stream cap = consumed ++ stream (recognise label_map cap).2 /\
    (length consumed <= 150)%nat /\
    frames_checked st = Z.of_nat (length consumed) /\
    (forall u q, recognized st = Some (u, q) ->
       exists fr l c, In fr consumed /\ In (l, c) (faces fr) /\
         f_ltb c CONFIDENCE_THRESHOLD = true /\
         u = default "Unknown" (label_map !! l) /\
         q = f_max (f_lit 0) (f_sub (f_lit 100) c)) /\
    (user_recognized st = true -> intruder_frame st = None).
Proof.
  cbv zeta. unfold recognise. destruct (opened cap).
  - destruct (recognition_loop_consumed label_map (stream cap)
                (RecogState None None 0) eq_refl)
      as (consumed & Hsplit & Hcount & Hmax & Hfrom & Hintr).
    destruct (recognition_loop label_map (stream cap) (RecogState None None 0))
      as [st rest].
    cbn [fst snd stream frames_checked recognized] in *.
    exists consumed. split; [exact Hsplit|].
    unfold MAX_RECOG_FRAMES in Hmax.
    split; [lia|]. split; [lia|]. split; [|exact Hintr].
    intros u q Hrec.
    destruct Hfrom as [Hsame | (fr & l & c & Hin' & Hin & Hc & Hr)];
      [congruence|].
    exists fr, l, c. rewrite Hr in Hrec. injection Hrec as <- <-.
    repeat split; assumption.
  - exists []. cbn. repeat split; try lia; discriminate.
Qed.

End RecognitionFacts.

(** ** Setting a PIN *)

Section PinSetupFacts.
Import Str PinAuth PinSetup.
Context `{Sha256}.

(** X9. [prompt_set_pin] returns a record only for a PIN that, once stripped,
    is all digits, 4 to 8 characters long and typed twice alike, with no
    Cancel before it; the record is the one [_hash_pin] makes for that
    PIN, and [verify_pin] accepts the PIN against it. *)
Theorem prompt_set_pin_accepts_only_valid_pins username events rnd h :
  prompt_set_pin username events rnd = Some h ->
  exists before pin_text confirm_text after,
    events = before ++ Confirm pin_text confirm_text :: after /\
    ~ In CancelSet before /\
    isdigit (strip pin_text) = true /\
    (4 <= String.length (strip pin_text) <= 8)%nat /\
    strip confirm_text = strip pin_text /\
    h = _hash_pin (strip pin_text) None rnd /\
    verify_pin (strip pin_text) h = true.
Proof.
  induction events as [|e rest IH]; cbn [prompt_set_pin]; [discriminate|].
  destruct e as [pin_text confirm_text|]; [|discriminate].
  destruct (on_confirm pin_text confirm_text rnd) as [err|h'] eqn:Hc.
  - intros Hrest.
    destruct (IH Hrest) as (before & pt & ct & after & -> & Hno & Hrest').
    exists (Confirm pin_text confirm_text :: before), pt, ct, after.
    split; [reflexivity|]. split; [|exact Hrest'].
    intros [Hin|Hin]; [discriminate|contradiction].
  - intros [= <-]. exists [], pin_text, confirm_text, rest.
    split; [reflexivity|]. split; [intros []|].
    unfold on_confirm in Hc.
    destruct (isdigit (strip pin_text)); cbn [negb] in Hc; [|discriminate].
    destruct (Nat.leb_spec 4 (String.length (strip pin_text)));
      cbn [andb negb] in Hc; [|discriminate].
    destruct (Nat.leb_spec (String.length (strip pin_text)) 8);
      cbn [negb] in Hc; [|discriminate].
    destruct (String.eqb_spec (strip pin_text) (strip confirm_text)) as [E|];
      cbn [negb] in Hc; [|discriminate].
    injection Hc as <-.
    repeat split; try lia; [now symmetry|].
    rewrite verify_pin_hash_pin. apply String.eqb_refl.
Qed.

End PinSetupFacts.

Lemma prompt_set_pin_accepts_only_valid_pins_witness :
  exists before pin_text confirm_text after,
    [PinSetup.Confirm "12a4" "12a4"; PinSetup.Confirm "123" "123";
     PinSetup.Confirm " 4242" "4242 "; PinSetup.CancelSet]
    = before ++ PinSetup.Confirm pin_text confirm_text :: after /\
    ~ In PinSetup.CancelSet before /\
    PinSetup.isdigit (Str.strip pin_text) = true /\
    (4 <= String.length (Str.strip pin_text) <= 8)%nat /\
    Str.strip confirm_text = Str.strip pin_text /\
    Reference.alice_pin_hash
    = @PinAuth._hash_pin Reference.plain_digest (Str.strip pin_text) None
        [Byte.x3c; Byte.xa7] /\
    @PinAuth.verify_pin Reference.plain_digest (Str.strip pin_text)
      Reference.alice_pin_hash = true.
Proof.
  apply (@prompt_set_pin_accepts_only_valid_pins Reference.plain_digest "alice").
  vm_compute. reflexivity.
Defined.

(** ** The audit trail *)

Section AuditFacts.
Import Clock Audit.

(** X26. With the [audit] table present and a limit that fits SQLite's
    64-bit integers, the entry just logged comes first in
    [get_audit_log], with the action code stored as given, followed by
    the older entries from newest to oldest: [limit - 1] of them for a
    positive limit, all of them for a negative one, none for 0; a limit
    that does not fit raises [OverflowError]. Without the table
    [log_action] records nothing and does not fail. *)
Theorem audit_log_newest_first action by_user target details now rows limit :
  let entry := AuditRow (strftime now) action by_user target details in
  let logged := log_action action by_user target details now (Some rows) in
  (0 < limit <= 2 ^ 63 - 1 ->
   get_audit_log limit logged
   = Rows (entry :: take (Z.to_nat (limit - 1)) (rev rows))) /\
  (- 2 ^ 63 <= limit < 0 -> get_audit_log limit logged = Rows (entry :: rev rows)) /\
  get_audit_log 0 logged = Rows [] /\
  (0 <= limit <= 2 ^ 63 - 1 ->
   exists l, get_audit_log limit logged = Rows l /\
             Z.of_nat (length l) <= limit) /\
  (limit < - 2 ^ 63 \/ 2 ^ 63 - 1 < limit ->
   get_audit_log limit logged = OverflowError) /\
  log_action action by_user target details now None = None.
Proof.
  cbv zeta. unfold log_action, get_audit_log, sqlite_integer.
  rewrite rev_app_distr. cbn [rev app].
  split; [|split; [|split; [reflexivity|split; [|split; [|reflexivity]]]]].
  - intros Hpos.
    destruct (Z.leb_spec (- 2 ^ 63) limit); [|lia].
    destruct (Z.leb_spec limit (2 ^ 63 - 1)); [|lia]. cbn [andb negb].
    destruct (Z.ltb_spec limit 0); [lia|].
    replace (Z.to_nat limit) with (S (Z.to_nat (limit - 1))) by lia.
    reflexivity.
  - intros Hneg.
    destruct (Z.leb_spec (- 2 ^ 63) limit); [|lia].
    destruct (Z.leb_spec limit (2 ^ 63 - 1)); [|lia]. cbn [andb negb].
    destruct (Z.ltb_spec limit 0); [reflexivity|lia].
  - intros Hnn.
    destruct (Z.leb_spec (- 2 ^ 63) limit); [|lia].
    destruct (Z.leb_spec limit (2 ^ 63 - 1)); [|lia]. cbn [andb negb].
    destruct (Z.ltb_spec limit 0); [lia|].
    eexists. split; [reflexivity|]. rewrite length_take. lia.
  - intros Hout.
    destruct (Z.leb_spec (- 2 ^ 63) limit);
      destruct (Z.leb_spec limit (2 ^ 63 - 1)); cbn [andb negb];
      try reflexivity; lia.
Qed.

End AuditFacts.

(** ** Training *)

Section TrainingFacts.
Import Training.
Context {R : Type}.

Lemma load_folder_labels label (files : list (@image_file R)) roi l :
  In (roi, l) (load_folder label files) -> l = label.
Proof.
  induction files as [|[detected|] rest IH]; cbn [load_folder].
  - intros [].
  - rewrite in_app_iff, in_map_iff. intros [(x & [= _ <-] & _)|Hin];
      [reflexivity|now apply IH].
  - exact IH.
Qed.

Lemma load_folders_spec k (folders : list (string * list (@image_file R)))
    (m : gmap Z string) :
  let r := load_folders k folders m in
  (forall i name files, folders !! i = Some (name, files) ->
                        r.1 !! (k + Z.of_nat i) = Some name) /\
  (forall j, j < k \/ k + Z.of_nat (length folders) <= j -> r.1 !! j = m !! j) /\
  (forall roi l, In (roi, l) r.2 -> k <= l < k + Z.of_nat (length folders)).
Proof.
  cbv zeta. revert k m.
  induction folders as [|[name files] rest IH]; intros k m; cbn [load_folders].
  - cbn. repeat split; try discriminate; try tauto.
  - specialize (IH (k + 1) (<[k := name]> m)).
    destruct (load_folders (k + 1) rest (<[k := name]> m)) as [m' more].
    cbn [fst snd length] in *. destruct IH as (Hnames & Hother & Hlabels).
    repeat split.
    + intros [|i] name' files' Hi; cbn in Hi.
      * injection Hi as <- <-. rewrite Z.add_0_r, Hother by lia.
        apply lookup_insert_eq.
      * replace (k + Z.of_nat (S i)) with (k + 1 + Z.of_nat i) by lia.
        now apply (Hnames i name' files').
    + intros j Hj. rewrite Hother by lia. apply lookup_insert_ne. lia.
    + apply in_app_iff in H as [Hin|Hin].
      * apply load_folder_labels in Hin. lia.
      * apply Hlabels in Hin. lia.
    + apply in_app_iff in H as [Hin|Hin].
      * apply load_folder_labels in Hin. lia.
      * apply Hlabels in Hin. lia.
Qed.

(** X27. When [train_model] succeeds, the label map it saves names the user
    folders by their position in the directory listing, counted from 0,
    including the folders that gave no face; every label of a training
    sample is one of these positions and so has a name; and there is at
    least one sample. *)
Theorem train_model_labels_follow_listing
    (folders : list (string * list (@image_file R))) msg samples label_map :
  train_model true folders = ((true, msg), Some (samples, label_map)) ->
  (forall i name files, folders !! i = Some (name, files) ->
                        label_map !! Z.of_nat i = Some name) /\
  (forall j, j < 0 \/ Z.of_nat (length folders) <= j -> label_map !! j = None) /\
  (forall roi l, In (roi, l) samples ->
     0 <= l < Z.of_nat (length folders) /\ is_Some (label_map !! l)) /\
  samples <> [].
Proof.
  unfold train_model. cbn [negb].
  destruct folders as [|folder rest]; [discriminate|].
  pose proof (load_folders_spec 0 (folder :: rest) ∅) as (Hnames & Hother & Hlabels).
  destruct (load_folders 0 (folder :: rest) ∅) as [m s].
  cbn [fst snd] in *.
  destruct s as [|x s]; [discriminate|].
  intros [= _ <- <-].
  split; [|split; [|split; [|discriminate]]].
  - intros i name files Hi. exact (Hnames i name files Hi).
  - intros j Hj. rewrite Hother by lia. apply lookup_empty.
  - intros roi l Hin. pose proof (Hlabels roi l Hin) as Hl. split; [lia|].
    destruct (lookup_lt_is_Some_2 (folder :: rest) (Z.to_nat l)) as [[name files] Hi];
      [lia|].
    pose proof (Hnames _ _ _ Hi) as Hname.
    rewrite Z2Nat.id in Hname by lia. cbn in Hname. eauto.
Qed.

End TrainingFacts.

Lemma train_model_labels_follow_listing_witness :
  exists msg samples label_map,
    Training.train_model true
      [("alice", [Some [7%nat; 8%nat]; None]); ("bob", [])]
    = ((true, msg), Some (samples, label_map)) /\
    label_map !! 1 = Some "bob".
Proof.
  eexists _, _, _. split; [reflexivity|].
  refine (proj1 (@train_model_labels_follow_listing nat
                   [("alice", [Some [7%nat; 8%nat]; None]); ("bob", [])]
                   _ _ _ eq_refl) 1%nat "bob" [] eq_refl).
Defined.

(** ** Registration *)

Section RegistrationFacts.
Import Clock Database Camera PinSetup Registration.
Context {F : Type} `{PinAuth.Sha256}.

(** The images the capture loop writes, from count [count] on. *)
Lemma capture_loop_spec folder (frames : list (frame F)) count :
  count < TARGET ->
  let r := capture_loop folder frames count in
  count <= r.1 <= TARGET /\
  Z.of_nat (length r.2) = r.1 - count /\
  (forall k op, r.2 !! k = Some op ->
     exists fr, op = Imwrite folder (pretty (count + 1 + Z.of_nat k) +:+ ".jpg") fr /\
                In fr frames /\ faces fr <> [] /\ Z.land (key fr) 255 = 32).
Proof.
  cbv zeta. revert count.
  induction frames as [|fr rest IH]; intros count Hc; cbn [capture_loop].
  - cbn. repeat split; try lia. intros k op Hk. now destruct k.
  - destruct (Z.eqb_spec (Z.land (key fr) 255) 32) as [Hkey|Hkey];
      cbn [andb].
    + destruct (faces fr) as [|p ps] eqn:Hfaces; cbn [length Nat.eqb negb].
      * rewrite Hkey. cbn [Z.eqb Pos.eqb].
        destruct (Z.leb_spec TARGET count); [lia|].
        destruct (IH count Hc) as (Hr & Hl & Hops).
        split; [exact Hr|]. split; [exact Hl|].
        intros k op Hk. destruct (Hops k op Hk) as (fr' & ? & ? & ?).
        exists fr'. repeat split; try tauto. now right.
      * destruct (Z.leb_spec TARGET (count + 1)) as [Hfull|Hmore].
        -- cbn [fst snd length]. split; [lia|]. split; [lia|].
           intros [|k] op Hk; cbn in Hk; [|discriminate].
           injection Hk as <-. exists fr. rewrite Z.add_0_r.
           repeat split; [now left|rewrite Hfaces; discriminate|exact Hkey].
        -- destruct (IH (count + 1) Hmore) as (Hr & Hl & Hops).
           destruct (capture_loop folder rest (count + 1)) as [n ops].
           cbn [fst snd length] in *. split; [lia|]. split; [lia|].
           intros [|k] op Hk; cbn in Hk.
           ++ injection Hk as <-. exists fr. rewrite Z.add_0_r.
              repeat split; [now left|rewrite Hfaces; discriminate|exact Hkey].
           ++ destruct (Hops k op Hk) as (fr' & -> & Hin & Hf & Hk').
              exists fr'.
              replace (count + 1 + Z.of_nat (S k))
                with (count + 1 + 1 + Z.of_nat k) by lia.
              repeat split; [now right|exact Hf|exact Hk'].
    + destruct (Z.land (key fr) 255 =? 27).
      * cbn. repeat split; try lia. intros k op Hk. now destruct k.
      * destruct (Z.leb_spec TARGET count); [lia|].
        destruct (IH count Hc) as (Hr & Hl & Hops).
        split; [exact Hr|]. split; [exact Hl|].
        intros k op Hk. destruct (Hops k op Hk) as (fr' & ? & ? & ?).
        exists fr'. repeat split; try tauto. now right.
Qed.

(** X28. A registration that succeeds has added the row of the cleaned user
    name (the name stripped, its blanks turned into underscores), which
    was not there before, with the PIN record the dialog returned (none
    if it was cancelled), so that [get_pin_hash] reads that record; it
    has left every other row alone; and it has written between 1 and 30
    images into the user's folder, named [1.jpg], [2.jpg], ... in order,
    each one a frame with a face taken on the space key. *)
Theorem register_user_success fullname username (i : inputs F)
    (users users' : gmap string user_row) ops msg :
  register_user fullname username i users = (users', ops, (true, msg)) ->
  let name := underscores (Str.strip username) in
  let folder := "datasets/" +:+ name in
  let pin := prompt_set_pin name (pin_events i) (salt_bytes i) in
  users !! name = None /\
  users' !! name = Some (UserRow fullname pin (strftime (now_registered i))) /\
  get_pin_hash name users' = pin /\
  (forall other, other <> name -> users' !! other = users !! other) /\
  exists shots,
    ops = Makedirs folder :: shots /\
    (1 <= length shots <= 30)%nat /\
    (forall k op, shots !! k = Some op ->
       exists fr, op = Imwrite folder (pretty (1 + Z.of_nat k) +:+ ".jpg") fr /\
                  In fr (stream (camera i)) /\ faces fr <> []).
Proof.
  cbv zeta. unfold register_user.
  destruct (negb (Str.truthy fullname) || negb (Str.truthy username));
    [discriminate|].
  destruct (dataset_path_exists i); [discriminate|].
  set (name := underscores (Str.strip username)).
  destruct (users !! name) as [row|] eqn:Hfree; [discriminate|].
  destruct (isOpened (camera i)); cbn [negb]; [|discriminate].
  pose proof (capture_loop_spec ("datasets/" +:+ name) (stream (camera i)) 0
                ltac:(unfold TARGET; lia)) as (Hr & Hl & Hops).
  destruct (capture_loop ("datasets/" +:+ name) (stream (camera i)) 0)
    as [count shots].
  cbn [fst snd] in *. unfold TARGET in Hr.
  destruct (Z.eqb_spec count 0) as [|Hpos]; [discriminate|].
  assert (Hshots : forall k op, shots !! k = Some op ->
            exists fr, op = Imwrite ("datasets/" +:+ name)
                              (pretty (1 + Z.of_nat k) +:+ ".jpg") fr /\
                       In fr (stream (camera i)) /\ faces fr <> []).
  { intros k op Hk. destruct (Hops k op Hk) as (fr & -> & Hin & Hf & _).
    exists fr. repeat split; assumption. }
  destruct (prompt_set_pin name (pin_events i) (salt_bytes i)) as [h|];
    intros [= <- <- _].
  - split; [reflexivity|]. unfold save_pin_hash, get_pin_hash.
    rewrite !lookup_insert_eq. cbn [Database.fullname Database.date_registered Database.pin_hash].
    repeat split.
    + intros other Hne. now rewrite !lookup_insert_ne by congruence.
    + exists shots. repeat split; [lia|lia|exact Hshots].
  - split; [reflexivity|]. unfold get_pin_hash. rewrite lookup_insert_eq.
    repeat split.
    + intros other Hne. now rewrite lookup_insert_ne by congruence.
    + exists shots. repeat split; [lia|lia|exact Hshots].
Qed.

(** X29. A registration that gets as far as the users table and then
    fails, because the webcam cannot be opened or because no image is
    taken, answers failure but leaves the user's row behind, without PIN.
    Any later registration under the same user name then fails and
    changes nothing: with the message that the user already exists when
    the dataset folder is there, with the database error when it is not. *)
Theorem abandoned_registration_blocks_the_name
    fullname username (i : inputs F) (users : gmap string user_row)
    fullname' (i' : inputs F) :
  let name := underscores (Str.strip username) in
  let folder := "datasets/" +:+ name in
  let first := register_user fullname username i users in
  Str.truthy fullname = true ->
  Str.truthy username = true ->
  Str.truthy fullname' = true ->
  dataset_path_exists i = false ->
  users !! name = None ->
  isOpened (camera i) = false \/ (capture_loop folder (stream (camera i)) 0).1 = 0 ->
  first.2.1 = false /\
  first.1.1 !! name
  = Some (UserRow fullname None (strftime (now_registered i))) /\
  register_user fullname' username i' first.1.1
  = if dataset_path_exists i'
    then (first.1.1, [],
          (false, "User '" +:+ name +:+ "' already exists!"))
    else (first.1.1, [Makedirs folder; Rmdir folder],
          (false, "Database Error: UNIQUE constraint failed: users.username")).
Proof.
  cbv zeta. intros Hf Hu Hf' Hd Hfree Hfail.
  assert (Hagain : forall us row,
            us !! underscores (Str.strip username) = Some row ->
            register_user fullname' username i' us
            = if dataset_path_exists i'
              then (us, [],
                    (false, "User '" +:+ underscores (Str.strip username)
                            +:+ "' already exists!"))
              else (us, [Makedirs ("datasets/" +:+ underscores (Str.strip username));
                         Rmdir ("datasets/" +:+ underscores (Str.strip username))],
                    (false, "Database Error: UNIQUE constraint failed: users.username"))).
  { intros us row Hrow. unfold register_user. rewrite Hf', Hu. cbn [negb orb].
    destruct (dataset_path_exists i'); [reflexivity|]. now rewrite Hrow. }
  assert (Hfirst : exists ops m,
            register_user fullname username i users
            = (<[underscores (Str.strip username) :=
                   UserRow fullname None (strftime (now_registered i))]> users,
               ops, (false, m))).
  { unfold register_user. rewrite Hf, Hu, Hd, Hfree. cbn [negb orb].
    destruct (isOpened (camera i)); cbn [negb].
    - destruct Hfail as [|Hzero]; [discriminate|].
      destruct (capture_loop _ (stream (camera i)) 0) as [count shots].
      cbn [fst] in Hzero. subst count. cbn [Z.eqb].
      eexists _, _. reflexivity.
    - eexists _, _. reflexivity. }
  destruct Hfirst as (ops & m & ->). cbn [fst snd].
  split; [reflexivity|]. split; [apply lookup_insert_eq|].
  eapply Hagain. apply lookup_insert_eq.
Qed.

End RegistrationFacts.

(** ** The further properties on concrete inputs *)

Section MoreScenarios.
Import Clock Database Camera Login Reference.

Lemma locked_gate_rejects_without_trace_witness :
  let w := World (<["login" := LockoutRow 5 (Some 41)]> ∅) (users alice_world)
                 [] [] ∅ (Session.Store None []) in
  login_user (H0:=plain_digest) good_attempt w
  = (w, (false, locked_message 31)).
Proof.
  cbv zeta.
  apply (@locked_gate_rejects_without_trace Q Q_float plain_digest good_attempt
           (World (<["login" := LockoutRow 5 (Some 41)]> ∅) (users alice_world)
                  [] [] ∅ (Session.Store None [])) 5 41).
  - reflexivity.
  - vm_compute. reflexivity.
Defined.

Lemma fifth_failure_locks_next_attempt_witness :
  let w := World (<["login" := LockoutRow 4 None]> ∅) (users alice_world)
                 [] [] ∅ (Session.Store None []) in
  let later := Inputs 20000000 21000000 22000000 23000000 true
                 (inr (<[1 := "alice"]> ∅)) (Capture true blinking_alice)
                 [PinAuth.Submit "4242"] in
  exists secs,
    0 < secs /\
    login_user (H0:=plain_digest) later
      (login_user (H0:=plain_digest) cancelled_attempt w).1
    = ((login_user (H0:=plain_digest) cancelled_attempt w).1,
       (false, locked_message secs)).
Proof.
  cbv zeta.
  apply (@fifth_failure_locks_next_attempt Q Q_float plain_digest).
  - vm_compute. reflexivity.
  - vm_compute. reflexivity.
  - vm_compute. reflexivity.
  - vm_compute. discriminate.
Defined.

Lemma register_user_success_witness :
  let i := Registration.Inputs false 1700000000500000
             (Capture true [Frame None [(0, 0%Q)] 32; Frame None [] 32;
                            Frame None [(0, 0%Q)] 32; Frame None [] 27])
             [PinSetup.Confirm "4242" "4242"] [Byte.x3c; Byte.xa7] in
  let r := Registration.register_user (H:=plain_digest) "Ann Lee" " ann lee " i ∅ in
  r.1.1 !! "ann_lee" = Some (UserRow "Ann Lee" (Some alice_pin_hash) 1700000000) /\
  get_pin_hash "ann_lee" r.1.1 = Some alice_pin_hash.
Proof.
  cbv zeta.
  assert (E : let i := Registration.Inputs false 1700000000500000
                (Capture true [Frame None [(0, 0%Q)] 32; Frame None [] 32;
                               Frame None [(0, 0%Q)] 32; Frame None [] 27])
                [PinSetup.Confirm "4242" "4242"] [Byte.x3c; Byte.xa7] in
              let r := Registration.register_user (H:=plain_digest)
                         "Ann Lee" " ann lee " i ∅ in
              r = (r.1.1, r.1.2, (true, r.2.2)))
    by (cbv zeta; vm_compute; reflexivity).
  cbv zeta in E.
  destruct (@register_user_success Q plain_digest _ _ _ _ _ _ _ E)
    as (_ & Hrow & Hpin & _).
  split; [exact Hrow|exact Hpin].
Defined.

Lemma abandoned_registration_blocks_the_name_witness :
  let i := Registration.Inputs false 1700000000500000
             (Capture (F:=Q) false []) [] [] in
  let first := Registration.register_user (H:=plain_digest) "Ann Lee" "ann" i ∅ in
  first.2.1 = false /\
  first.1.1 !! "ann" = Some (UserRow "Ann Lee" None 1700000000) /\
  Registration.register_user (H:=plain_digest) "Ann Lee" "ann" i first.1.1
  = (first.1.1,
     [Registration.Makedirs "datasets/ann"; Registration.Rmdir "datasets/ann"],
     (false, "Database Error: UNIQUE constraint failed: users.username")).
Proof.
  cbv zeta.
  apply (@abandoned_registration_blocks_the_name Q plain_digest
           "Ann Lee" "ann"
           (Registration.Inputs false 1700000000500000 (Capture false []) [] [])
           ∅ "Ann Lee"
           (Registration.Inputs false 1700000000500000 (Capture false []) [] []));
    try reflexivity.
  left. reflexivity.
Defined.

End MoreScenarios.
